(** * Transaction-graph fraud analysis (app.py): model and properties

    A shallow embedding of the detection functions and of the [/upload]
    route of [app.py].  Account identifiers and pattern labels are Python
    [str] values, modelled as [string].  Scores are Python floats that only
    ever hold the integral values 0, 20, 40, 50, 70, 90 and 95, all exactly
    representable; they are modelled as [Z]. *)

From Stdlib Require Import String Ascii ZArith Lia Bool Arith List.
From Stdlib Require Import Permutation Sorted DecimalString DecimalNat.
Import ListNotations.
Open Scope string_scope.
Open Scope list_scope.

(** ** Python built-ins used by the program *)

Module Py.

(** [x in l] on a list of strings. *)
Definition list_in (x : string) (l : list string) : bool :=
  existsb (String.eqb x) l.

(** [sub in s] on strings: [sub] occurs in [s] at some offset. *)
Fixpoint str_in (sub s : string) : bool :=
  String.prefix sub s ||
  match s with
  | EmptyString => false
  | String _ s' => str_in sub s'
  end.

(** [str(n)] for a non-negative integer. *)
Definition str_of_nat (n : nat) : string :=
  NilEmpty.string_of_uint (Nat.to_uint n).

(** The format specification [:03d]: decimal digits, padded on the left
    with zeros up to a minimal width of three. *)
Definition format_03d (n : nat) : string :=
  let s := str_of_nat n in
  (String.concat "" (repeat "0" (3 - String.length s)) ++ s)%string.

(** Keep the first occurrence of every element: the order in which keys
    enter a [dict] (and nodes enter a graph). *)
Fixpoint dedup_first (seen : list string) (l : list string) : list string :=
  match l with
  | [] => []
  | x :: l' =>
      if list_in x seen then dedup_first seen l'
      else x :: dedup_first (x :: seen) l'
  end.

End Py.

(** ** Insertion-ordered dictionaries

    [defaultdict(list)] keeps its keys in insertion order, and that order
    decides the order of the report, so the dictionary is an association
    list in insertion order with pairwise distinct keys. *)

Module Dict.

Definition t := list (string * list string).

Definition empty : t := [].

(** [d[k]] read without creating the key. *)
Fixpoint get (d : t) (k : string) : list string :=
  match d with
  | [] => []
  | (k', v) :: d' => if String.eqb k k' then v else get d' k
  end.

Definition keys (d : t) : list string := map fst d.

(** [d[k].extend(vs)] on a [defaultdict(list)]: the key is created at the
    end when missing. *)
Fixpoint extend (d : t) (k : string) (vs : list string) : t :=
  match d with
  | [] => [(k, vs)]
  | (k', v) :: d' =>
      if String.eqb k k' then (k', v ++ vs) :: d'
      else (k', v) :: extend d' k vs
  end.

(** [d[k].append(v)]. *)
Definition append (d : t) (k : string) (v : string) : t := extend d k [v].

Definition items (d : t) : list (string * list string) := d.

End Dict.

(** ** Scoring *)

(** [calculate_score(patterns)]. *)
Definition calculate_score (patterns : list string) : Z :=
  let score := 0%Z in
  let score :=
    if existsb (fun p => Py.str_in "cycle" p) patterns
    then (score + 50)%Z else score in
  let score :=
    if Py.list_in "fan_in" patterns then (score + 20)%Z else score in
  let score :=
    if Py.list_in "fan_out" patterns then (score + 20)%Z else score in
  Z.min score 100.

(** ** The transaction graph ([nx.DiGraph])

    A directed graph without parallel edges.  Nodes and edges are kept in
    insertion order, which is the order [G.nodes()] iterates in. *)

Record DiGraph := {
  nodes : list string;
  edges : list (string * string)
}.

Definition empty_graph : DiGraph := {| nodes := []; edges := [] |}.

Definition edge_eqb (e f : string * string) : bool :=
  String.eqb (fst e) (fst f) && String.eqb (snd e) (snd f).

Definition has_edge (G : DiGraph) (u v : string) : bool :=
  existsb (edge_eqb (u, v)) (edges G).

Definition add_node (G : DiGraph) (n : string) : DiGraph :=
  if Py.list_in n (nodes G) then G
  else {| nodes := nodes G ++ [n]; edges := edges G |}.

(** [G.add_edge(u, v)]: both end points become nodes ([u] first), and the
    edge is recorded once however often it is added. *)
Definition add_edge (G : DiGraph) (u v : string) : DiGraph :=
  let G := add_node (add_node G u) v in
  if has_edge G u v then G
  else {| nodes := nodes G; edges := edges G ++ [(u, v)] |}.

(** [G.in_degree(n)] and [G.out_degree(n)]: the number of edges into and
    out of [n]. *)
Definition in_degree (G : DiGraph) (n : string) : nat :=
  length (filter (fun e => String.eqb (snd e) n) (edges G)).

Definition out_degree (G : DiGraph) (n : string) : nat :=
  length (filter (fun e => String.eqb (fst e) n) (edges G)).

(** ** What the program takes from its runtime

    Three results are not determined by [app.py] itself: the list that
    [nx.simple_cycles] returns (which cycles come first, and at which node
    each one starts), the order in which [list(set(...))] lists the members
    of a set of strings, and the wall-clock duration. *)

Record Runtime := {
  simple_cycles : DiGraph -> list (list string);
  list_set : list string -> list string;
  processing_time : Z
}.

(** Consecutive members of [c] are joined by edges of [G]. *)
Fixpoint is_path (G : DiGraph) (c : list string) : Prop :=
  match c with
  | u :: (v :: _) as c' => In (u, v) (edges G) /\ is_path G c'
  | _ => True
  end.

(** [c] lists the nodes of a directed cycle of [G] in edge order, the edge
    from the last node back to the first one closing it. *)
Definition is_cycle (G : DiGraph) (c : list string) : Prop :=
  match c with
  | [] => False
  | u :: _ => is_path G (c ++ [u])
  end.

(** The documented result of [nx.simple_cycles]: elementary circuits of the
    graph, no node appearing twice in one of them. *)
Definition simple_cycles_spec (sc : DiGraph -> list (list string)) : Prop :=
  forall G c, In c (sc G) -> NoDup c /\ is_cycle G c.

(** [list(set(l))]: the distinct members of [l], in some order. *)
Definition list_set_spec (ls : list string -> list string) : Prop :=
  forall l, NoDup (ls l) /\ forall x, In x (ls l) <-> In x l.

(** ** Detection functions *)

(** [detect_cycles(G)]. *)
Definition detect_cycles (R : Runtime) (G : DiGraph) : list (list string) :=
  let all_cycles := simple_cycles R G in
  filter (fun c => (3 <=? length c)%nat && (length c <=? 5)%nat) all_cycles.

(** [detect_fan_patterns(G)]. *)
Definition detect_fan_patterns (G : DiGraph) : Dict.t :=
  fold_left
    (fun fan_patterns node =>
       let fan_patterns :=
         if (10 <=? in_degree G node)%nat
         then Dict.append fan_patterns node "fan_in" else fan_patterns in
       if (10 <=? out_degree G node)%nat
       then Dict.append fan_patterns node "fan_out" else fan_patterns)
    (nodes G) Dict.empty.

(** ** The uploaded table ([pd.read_csv]) *)

(** A parsed CSV file: the column labels of its header and one list of
    cells per data row. *)
Record DataFrame := {
  columns : list string;
  rows : list (list string)
}.

(** One row as [df.iterrows()] yields it: cells labelled by column. *)
Definition Series := list (string * string).

Definition iterrows (df : DataFrame) : list Series :=
  map (fun cells => combine (columns df) cells) (rows df).

(** [row[name]].  The only reads are of two required columns and come after
    the header check, where every full-width row holds the label; the empty
    string stands for a cell the row does not have. *)
Fixpoint getitem (row : Series) (name : string) : string :=
  match row with
  | [] => ""
  | (label, value) :: row' =>
      if String.eqb label name then value else getitem row' name
  end.

Definition required_columns : list string :=
  ["transaction_id"; "sender_id"; "receiver_id"; "amount"; "timestamp"].

(** [required.issubset(cols)]. *)
Definition issubset (required cols : list string) : bool :=
  forallb (fun c => Py.list_in c cols) required.

(** ** Report records *)

Module Ring.
Record t := {
  ring_id : string;
  member_accounts : list string;
  pattern_type : string;
  risk_score : Z
}.
End Ring.

Module Account.
Record t := {
  account_id : string;
  suspicion_score : Z;
  detected_patterns : list string;
  ring_id : string
}.
End Account.

Record Summary := {
  total_accounts_analyzed : nat;
  suspicious_accounts_flagged : nat;
  fraud_rings_detected : nat;
  processing_time_seconds : Z
}.

Record ResultJson := {
  suspicious_accounts : list Account.t;
  fraud_rings : list Ring.t;
  summary : Summary
}.

(** What the route answers: the plain message of the header check, or the
    rendered results page with its two tables. *)
Inductive Response :=
| InvalidCsv (message : string)
| ResultsPage (rings : list Ring.t) (accounts : list Account.t).

(** ** The [/upload] route, step by step *)

(** Lines 74-77: the graph of all transfers. *)
Definition build_graph (df : DataFrame) : DiGraph :=
  fold_left
    (fun G row => add_edge G (getitem row "sender_id") (getitem row "receiver_id"))
    (iterrows df) empty_graph.

(** The variables the cycle loop updates. *)
Record RingState := {
  ring_counter : nat;
  rings_so_far : list Ring.t;
  suspicious_dict : Dict.t
}.

Definition cycle_label (cycle : list string) : string :=
  ("cycle_length_" ++ Py.str_of_nat (length cycle))%string.

(** Lines 88-100: one turn of the loop over the detected cycles. *)
Definition ring_step (st : RingState) (cycle : list string) : RingState :=
  let ring_id := ("RING_" ++ Py.format_03d (ring_counter st))%string in
  let ring :=
    {| Ring.ring_id := ring_id;
       Ring.member_accounts := cycle;
       Ring.pattern_type := "cycle";
       Ring.risk_score := 95 |} in
  {| ring_counter := ring_counter st + 1;
     rings_so_far := rings_so_far st ++ [ring];
     suspicious_dict :=
       fold_left (fun d account => Dict.append d account (cycle_label cycle))
                 cycle (suspicious_dict st) |}.

(** Lines 79-100. *)
Definition ring_loop (cycles : list (list string)) : RingState :=
  fold_left ring_step cycles
    {| ring_counter := 1; rings_so_far := []; suspicious_dict := Dict.empty |}.

(** Lines 103-106: the fan labels join the cycle labels. *)
Definition merge_fan_patterns (d fan_patterns : Dict.t) : Dict.t :=
  fold_left
    (fun d item => Dict.extend d (fst item) (snd item))
    (Dict.items fan_patterns) d.

(** Lines 115-119: the first ring that lists the account. *)
Fixpoint find_ring_id (rings : list Ring.t) (account : string) : string :=
  match rings with
  | [] => "N/A"
  | ring :: rest =>
      if Py.list_in account (Ring.member_accounts ring)
      then Ring.ring_id ring
      else find_ring_id rest account
  end.

(** Lines 109-126: one record per key of the dictionary, in key order. *)
Definition build_accounts (R : Runtime) (rings : list Ring.t) (d : Dict.t)
  : list Account.t :=
  map
    (fun item =>
       let '(account, patterns) := item in
       {| Account.account_id := account;
          Account.suspicion_score := calculate_score patterns;
          Account.detected_patterns := list_set R patterns;
          Account.ring_id := find_ring_id rings account |})
    (Dict.items d).

(** [sorted(l, key=..., reverse=True)]: a stable sort into non-increasing
    key order; members with equal keys keep the order they had in [l]. *)
Fixpoint insert_reverse {A} (key : A -> Z) (x : A) (l : list A) : list A :=
  match l with
  | [] => [x]
  | y :: l' =>
      if (key x <? key y)%Z then y :: insert_reverse key x l'
      else x :: y :: l'
  end.

Fixpoint sorted_reverse {A} (key : A -> Z) (l : list A) : list A :=
  match l with
  | [] => []
  | x :: l' => insert_reverse key x (sorted_reverse key l')
  end.

(** Lines 74-146: the analysis proper, from the table to [result_json]. *)
Definition analyse (R : Runtime) (df : DataFrame) : ResultJson :=
  let G := build_graph df in
  let cycles := detect_cycles R G in
  let st := ring_loop cycles in
  let fraud_rings := rings_so_far st in
  let fan_patterns := detect_fan_patterns G in
  let suspicious_dict := merge_fan_patterns (suspicious_dict st) fan_patterns in
  let suspicious_accounts := build_accounts R fraud_rings suspicious_dict in
  let suspicious_accounts :=
    sorted_reverse Account.suspicion_score suspicious_accounts in
  {| suspicious_accounts := suspicious_accounts;
     fraud_rings := fraud_rings;
     summary :=
       {| total_accounts_analyzed := length (nodes G);
          suspicious_accounts_flagged := length suspicious_accounts;
          fraud_rings_detected := length fraud_rings;
          processing_time_seconds := processing_time R |} |}.

Definition invalid_csv_message : string :=
  "Invalid CSV format. Please follow required structure.".

(** [upload_file()], after the upload has been parsed into [df].  [disk] is
    the content of [outputs/result.json], if the file exists; the route
    returns its answer and the new content. *)
Definition upload_file (R : Runtime) (df : DataFrame)
    (disk : option ResultJson) : Response * option ResultJson :=
  if negb (issubset required_columns (columns df))
  then (InvalidCsv invalid_csv_message, disk)
  else
    let result_json := analyse R df in
    (ResultsPage (fraud_rings result_json) (suspicious_accounts result_json),
     Some result_json).

(** ** A reference runtime

    An executable enumeration of elementary circuits, used to run the model
    on concrete tables.  Every circuit is listed once, starting at its
    earliest node in node order: the search from [start] only walks through
    nodes that come later than [start]. *)

Definition successors (G : DiGraph) (u : string) : list string :=
  map snd (filter (fun e => String.eqb (fst e) u) (edges G)).

(** [rpath] is the path walked so far, last node first. *)
Fixpoint search (fuel : nat) (G : DiGraph) (start : string)
    (later : list string) (rpath : list string) : list (list string) :=
  match fuel with
  | O => []
  | S fuel' =>
      match rpath with
      | [] => []
      | cur :: _ =>
          flat_map
            (fun v =>
               if String.eqb v start then [rev rpath]
               else if Py.list_in v later && negb (Py.list_in v rpath)
                    then search fuel' G start later (v :: rpath)
                    else [])
            (successors G cur)
      end
  end.

Fixpoint cycles_from (G : DiGraph) (starts : list string) : list (list string) :=
  match starts with
  | [] => []
  | s :: later => search (S (length later)) G s later [s] ++ cycles_from G later
  end.

Definition enumerate_cycles (G : DiGraph) : list (list string) :=
  cycles_from G (nodes G).

(** Sets listed in order of first occurrence, and in the opposite order. *)
Definition first_seen (l : list string) : list string := Py.dedup_first [] l.

Definition last_seen (l : list string) : list string := rev (first_seen l).

Definition reference_runtime : Runtime :=
  {| simple_cycles := enumerate_cycles;
     list_set := first_seen;
     processing_time := 0 |}.

Definition reversed_runtime : Runtime :=
  {| simple_cycles := enumerate_cycles;
     list_set := last_seen;
     processing_time := 0 |}.

(** A table with the five required columns, from (sender, receiver) pairs. *)
Definition table_of (transfers : list (string * string)) : DataFrame :=
  {| columns := required_columns;
     rows := map (fun t => ["T"; fst t; snd t; "1.0"; "2024-01-01"]) transfers |}.


(** ** Vocabulary of the properties *)

(** The five labels the pipeline can attach to an account. *)
Definition pattern_labels : list string :=
  ["cycle_length_3"; "cycle_length_4"; "cycle_length_5"; "fan_in"; "fan_out"].

Definition cycle_labels : list string :=
  ["cycle_length_3"; "cycle_length_4"; "cycle_length_5"].

(** 1 when [x] is among [l], else 0. *)
Definition present (x : string) (l : list string) : Z :=
  if in_dec string_dec x l then 1%Z else 0%Z.

(** 1 when some member of [l] is a cycle label, else 0. *)
Definition any_cycle_label (l : list string) : Z :=
  if existsb (fun p => if in_dec string_dec p cycle_labels then true else false) l
  then 1%Z else 0%Z.

(** The transfers of a table, row by row, as (sender, receiver). *)
Definition transfers (df : DataFrame) : list (string * string) :=
  map (fun row => (getitem row "sender_id", getitem row "receiver_id"))
      (iterrows df).

(** The accounts of a table in order of first appearance, the sender of a
    row counting before its receiver. *)
Definition first_appearance (df : DataFrame) : list string :=
  first_seen (flat_map (fun t => [fst t; snd t]) (transfers df)).

(** The distinct accounts that send to, and that receive from, [n]. *)
Definition distinct_senders (df : DataFrame) (n : string) : list string :=
  first_seen (map fst (filter (fun t => String.eqb (snd t) n) (transfers df))).

Definition distinct_receivers (df : DataFrame) (n : string) : list string :=
  first_seen (map snd (filter (fun t => String.eqb (fst t) n) (transfers df))).

(** [x] occurs in [l] and [y] occurs somewhere after it. *)
Inductive before {A} : list A -> A -> A -> Prop :=
| before_here x y l : In y l -> before (x :: l) x y
| before_later z x y l : before l x y -> before (z :: l) x y.

(** The ring records of a list of cycles, numbered from [start]. *)
Definition ring_of (number : nat) (cycle : list string) : Ring.t :=
  {| Ring.ring_id := ("RING_" ++ Py.format_03d number)%string;
     Ring.member_accounts := cycle;
     Ring.pattern_type := "cycle";
     Ring.risk_score := 95 |}.

Fixpoint number_rings (start : nat) (cycles : list (list string)) : list Ring.t :=
  match cycles with
  | [] => []
  | c :: cycles' => ring_of start c :: number_rings (S start) cycles'
  end.

(** ** Dictionaries as the trace of their updates *)

(** What one more key does to the key order. *)
Definition add_key (ks : list string) (k : string) : list string :=
  if Py.list_in k ks then ks else ks ++ [k].

(** A run of [d[k].extend(vs)] updates, oldest first. *)
Definition of_ops (ops : list (string * list string)) (d : Dict.t) : Dict.t :=
  fold_left (fun d op => Dict.extend d (fst op) (snd op)) ops d.

(** Everything the updates [ops] put under key [k], in order. *)
Definition gather (ops : list (string * list string)) (k : string) : list string :=
  flat_map (fun op => if String.eqb (fst op) k then snd op else []) ops.

(** The updates of the cycle loop: for every cycle, one label per member. *)
Definition cycle_ops (cycles : list (list string)) : list (string * list string) :=
  flat_map (fun c => map (fun account => (account, [cycle_label c])) c) cycles.

(** The labels the degree test gives a node. *)
Definition fan_labels (G : DiGraph) (n : string) : list string :=
  (if (10 <=? in_degree G n)%nat then ["fan_in"] else []) ++
  (if (10 <=? out_degree G n)%nat then ["fan_out"] else []).

Definition fan_ops (G : DiGraph) (ns : list string) : list (string * list string) :=
  flat_map (fun n => map (fun p => (n, [p])) (fan_labels G n)) ns.

(** What one more transfer does to the edge list. *)
Definition add_edge_key (es : list (string * string)) (e : string * string)
  : list (string * string) :=
  if existsb (edge_eqb e) es then es else es ++ [e].

(** ** The report in closed form *)

(** A node that has at least ten distinct senders or ten distinct
    receivers. *)
Definition flagged (df : DataFrame) (n : string) : bool :=
  (10 <=? length (distinct_senders df n))%nat
  || (10 <=? length (distinct_receivers df n))%nat.

(** The order in which accounts enter the evidence dictionary: the members
    of the detected cycles, cycle after cycle, then the flagged accounts in
    order of first appearance; an account counts where it comes first. *)
Definition evidence_order (R : Runtime) (df : DataFrame) : list string :=
  first_seen
    (concat (detect_cycles R (build_graph df))
     ++ filter (flagged df) (first_appearance df)).

(** All labels recorded for an account, cycle labels first. *)
Definition evidence (R : Runtime) (df : DataFrame) (k : string) : list string :=
  let G := build_graph df in
  gather (cycle_ops (detect_cycles R G)) k ++ gather (fan_ops G (nodes G)) k.

Definition account_of (R : Runtime) (df : DataFrame) (k : string) : Account.t :=
  {| Account.account_id := k;
     Account.suspicion_score := calculate_score (evidence R df k);
     Account.detected_patterns := list_set R (evidence R df k);
     Account.ring_id :=
       find_ring_id (number_rings 1 (detect_cycles R (build_graph df))) k |}.

(** ** Order of the report *)

(** Scores never go up along the list. *)
Definition non_increasing (accounts : list Account.t) : Prop :=
  StronglySorted
    (fun x y => (Account.suspicion_score y <= Account.suspicion_score x)%Z)
    accounts.

(** Accounts with equal scores are listed in the relative order that their
    identifiers have in [order]. *)
Definition ties_follow (order : list string) (accounts : list Account.t) : Prop :=
  forall x y,
    In x accounts -> In y accounts ->
    Account.suspicion_score x = Account.suspicion_score y ->
    (before accounts x y <->
     before order (Account.account_id x) (Account.account_id y)).

(** ** Two runs on the same table *)

(** A runtime that behaves as documented. *)
Definition admissible (R : Runtime) : Prop :=
  simple_cycles_spec (simple_cycles R) /\ list_set_spec (list_set R).

(** The same account record, but for the order its labels are listed in. *)
Definition same_up_to_label_order (a b : Account.t) : Prop :=
  Account.account_id a = Account.account_id b
  /\ Account.suspicion_score a = Account.suspicion_score b
  /\ Account.ring_id a = Account.ring_id b
  /\ Permutation (Account.detected_patterns a) (Account.detected_patterns b).

(** A hub that receives from ten accounts and sends to ten others. *)
Definition hub_table : DataFrame :=
  table_of
    (map (fun s => (s, "H"))
         ["S0"; "S1"; "S2"; "S3"; "S4"; "S5"; "S6"; "S7"; "S8"; "S9"]
     ++ map (fun r => ("H", r))
         ["R0"; "R1"; "R2"; "R3"; "R4"; "R5"; "R6"; "R7"; "R8"; "R9"]).

(** A 3-cycle whose accounts first appear in the order A, Z, C, B. *)
Definition ring_table : DataFrame :=
  table_of [("A", "Z"); ("C", "A"); ("B", "C"); ("A", "B")].

(** The counterparties of [n] along the edges [es]: [sel] picks the end
    point that must be [n], [other] the opposite one. *)
Definition counterparties (sel other : string * string -> string) (n : string)
    (es : list (string * string)) : list string :=
  map other (filter (fun e => String.eqb (sel e) n) es).

(** Refutes a hypothesis that places one literal before another. *)
Ltac refute_before :=
  repeat match goal with
         | H : before _ _ _ |- _ => inversion H; clear H; subst
         | H : In _ _ |- _ => simpl in H; intuition discriminate
         end.

(** ** Further vocabulary *)

(** The graph that the loop over the rows builds from their transfers. *)
Definition graph_of (ts : list (string * string)) : DiGraph :=
  fold_left (fun G t => add_edge G (fst t) (snd t)) ts empty_graph.

(** Some ring lists the account among its members. *)
Definition in_some_ring (rings : list Ring.t) (account : string) : bool :=
  existsb (fun ring => Py.list_in account (Ring.member_accounts ring)) rings.

(** Consecutive members of [c] are joined by a transfer of [ts]. *)
Fixpoint transfer_chain (ts : list (string * string)) (c : list string) : Prop :=
  match c with
  | u :: (v :: _) as c' => In (u, v) ts /\ transfer_chain ts c'
  | _ => True
  end.

(** [c] is a closed loop of transfers: each member sends to the next one,
    and the last one to the first. *)
Definition transfer_loop (ts : list (string * string)) (c : list string) : Prop :=
  match c with
  | [] => False
  | u :: _ => transfer_chain ts (c ++ [u])
  end.

(** The number that a ring id carries after its "RING_" prefix. *)
Definition ring_number (ring_id : string) : option nat :=
  match ring_id with
  | String "R" (String "I" (String "N" (String "G" (String "_" digits)))) =>
      option_map Nat.of_uint (NilEmpty.uint_of_string digits)
  | _ => None
  end.


(** * Properties *)

(** ** Membership tests *)

Lemma list_in_In x l : Py.list_in x l = true <-> In x l.
Proof.
  unfold Py.list_in. rewrite existsb_exists. split.
  - intros [y [Hy E]]. apply String.eqb_eq in E. now subst.
  - intros H. exists x. split; [assumption | apply String.eqb_refl].
Qed.

Lemma list_in_not_In x l : Py.list_in x l = false <-> ~ In x l.
Proof.
  rewrite <- list_in_In. destruct (Py.list_in x l); split; congruence.
Qed.

Lemma list_in_ext x l l' :
  (forall y, In y l <-> In y l') -> Py.list_in x l = Py.list_in x l'.
Proof.
  intros E. destruct (Py.list_in x l') eqn:H.
  - apply list_in_In, E, list_in_In, H.
  - apply list_in_not_In. intros Hx. apply E, list_in_In in Hx. congruence.
Qed.

Lemma existsb_ext_In {A} (f : A -> bool) l l' :
  (forall y, In y l <-> In y l') -> existsb f l = existsb f l'.
Proof.
  intros E. destruct (existsb f l') eqn:H.
  - apply existsb_exists in H as [y [Hy Hf]].
    apply existsb_exists. exists y. split; [now apply E | assumption].
  - destruct (existsb f l) eqn:H'; [| reflexivity].
    apply existsb_exists in H' as [y [Hy Hf]].
    assert (existsb f l' = true) by (apply existsb_exists; exists y; split; [now apply E | assumption]).
    congruence.
Qed.

(** ** The score *)

(** The score only depends on which labels occur. *)
Lemma calculate_score_ext l l' :
  (forall y, In y l <-> In y l') -> calculate_score l = calculate_score l'.
Proof.
  intros E. unfold calculate_score.
  rewrite (existsb_ext_In _ l l' E).
  now rewrite (list_in_ext "fan_in" l l' E), (list_in_ext "fan_out" l l' E).
Qed.

(** On the five labels, ["cycle" in p] singles out the cycle labels. *)
Lemma str_in_cycle_label p :
  In p pattern_labels ->
  Py.str_in "cycle" p = if in_dec string_dec p cycle_labels then true else false.
Proof.
  intros H. simpl in H.
  repeat (destruct H as [H | H]; [subst p; vm_compute; reflexivity |]).
  contradiction.
Qed.

Lemma present_list_in x l : present x l = if Py.list_in x l then 1%Z else 0%Z.
Proof.
  unfold present. destruct (in_dec string_dec x l) as [H | H].
  - apply list_in_In in H. now rewrite H.
  - apply list_in_not_In in H. now rewrite H.
Qed.

Lemma calculate_score_range l : (0 <= calculate_score l <= 100)%Z.
Proof.
  unfold calculate_score.
  destruct (existsb _ l), (Py.list_in "fan_in" l), (Py.list_in "fan_out" l);
    simpl; lia.
Qed.

(** C2: on labels drawn from the five pattern labels the score is
    [min(100, 50*[a cycle label occurs] + 20*[fan_in occurs] + 20*[fan_out
    occurs])]; it lies between 0 and 100, does not depend on the order of
    the labels, and a label that already occurs does not change it. *)
Theorem calculate_score_formula (patterns : list string) :
  Forall (fun p => In p pattern_labels) patterns ->
  calculate_score patterns =
    Z.min 100 (50 * any_cycle_label patterns
               + 20 * present "fan_in" patterns
               + 20 * present "fan_out" patterns)
  /\ (0 <= calculate_score patterns <= 100)%Z
  /\ (forall patterns', Permutation patterns patterns' ->
        calculate_score patterns' = calculate_score patterns)
  /\ (forall p, In p patterns ->
        calculate_score (p :: patterns) = calculate_score patterns).
Proof.
  intros Hvalid. repeat split.
  - unfold calculate_score, any_cycle_label.
    rewrite !present_list_in.
    assert (E : existsb (fun p => Py.str_in "cycle" p) patterns =
                existsb (fun p => if in_dec string_dec p cycle_labels
                                  then true else false) patterns).
    { induction Hvalid as [| p l Hp _ IH]; [reflexivity |].
      simpl. now rewrite IH, (str_in_cycle_label p Hp). }
    rewrite E. clear E.
    destruct (existsb _ patterns), (Py.list_in "fan_in" patterns),
      (Py.list_in "fan_out" patterns); reflexivity.
  - apply calculate_score_range.
  - apply calculate_score_range.
  - intros patterns' HP. apply calculate_score_ext. intros y. split; intros Hy.
    + eapply Permutation_in; [symmetry; exact HP | exact Hy].
    + eapply Permutation_in; [exact HP | exact Hy].
  - intros p Hp. apply calculate_score_ext. intros y. simpl. split.
    + intros [-> | H]; assumption.
    + intros H. now right.
Qed.

Lemma calculate_score_formula_witness :
  calculate_score ["fan_out"; "cycle_length_4"; "fan_out"] = 70%Z
  /\ calculate_score ["cycle_length_4"; "fan_out"; "fan_out"] = 70%Z.
Proof.
  assert (V : Forall (fun p => In p pattern_labels)
                ["fan_out"; "cycle_length_4"; "fan_out"]).
  { repeat (apply Forall_cons; [simpl; auto 10 |]). apply Forall_nil. }
  destruct (calculate_score_formula _ V) as [E [_ [P _]]].
  split.
  - rewrite E. reflexivity.
  - rewrite (P ["cycle_length_4"; "fan_out"; "fan_out"]).
    + rewrite E. reflexivity.
    + apply perm_swap.
Defined.

(** ** Cycle detection *)

Lemma detect_cycles_In R G c :
  In c (detect_cycles R G) <->
  In c (simple_cycles R G) /\ 3 <= length c <= 5.
Proof.
  unfold detect_cycles. rewrite filter_In, andb_true_iff.
  rewrite Nat.leb_le, Nat.leb_le. tauto.
Qed.

Lemma is_cycle_has_edge G c : is_cycle G c -> edges G <> [].
Proof.
  destruct c as [| u [| v c']]; simpl; [tauto | |];
    intros [H _] E; rewrite E in H; exact H.
Qed.

(** C1: every cycle that the detector emits has between 3 and 5 nodes and
    repeats none of them; a self-loop and a 2-cycle are never emitted, and
    the empty graph has no cycle. *)
Theorem detect_cycles_bounded_simple (R : Runtime) :
  simple_cycles_spec (simple_cycles R) ->
  (forall G c, In c (detect_cycles R G) -> 3 <= length c <= 5 /\ NoDup c)
  /\ (forall G u, ~ In [u] (detect_cycles R G))
  /\ (forall G u v, ~ In [u; v] (detect_cycles R G))
  /\ detect_cycles R empty_graph = [].
Proof.
  intros Hspec. repeat split.
  - now apply detect_cycles_In in H.
  - now apply detect_cycles_In in H.
  - apply detect_cycles_In in H as [H _]. now apply Hspec in H.
  - intros G u H. apply detect_cycles_In in H as [_ H]. simpl in H. lia.
  - intros G u v H. apply detect_cycles_In in H as [_ H]. simpl in H. lia.
  - destruct (detect_cycles R empty_graph) as [| c l] eqn:E; [reflexivity |].
    assert (H : In c (detect_cycles R empty_graph)) by (rewrite E; now left).
    apply detect_cycles_In in H as [H _].
    apply Hspec in H as [_ H]. apply is_cycle_has_edge in H.
    now contradiction H.
Qed.

(** ** The reference enumeration lists elementary circuits *)

Lemma successors_In G u v : In v (successors G u) <-> In (u, v) (edges G).
Proof.
  unfold successors. rewrite in_map_iff. split.
  - intros [[a b] [E H]]. apply filter_In in H as [H Hf]. simpl in *.
    apply String.eqb_eq in Hf. now subst.
  - intros H. exists (u, v). split; [reflexivity |].
    apply filter_In. split; [assumption | apply String.eqb_refl].
Qed.

Lemma is_path_snoc G l a b :
  is_path G (l ++ [a]) -> In (a, b) (edges G) -> is_path G ((l ++ [a]) ++ [b]).
Proof.
  intros Hp He. induction l as [| x l IH]; simpl.
  - tauto.
  - simpl in Hp. destruct (l ++ [a]) as [| y t] eqn:E.
    + destruct l; discriminate.
    + simpl. destruct Hp as [Hxy Hp]. split; [assumption |]. now apply IH.
Qed.

Lemma search_step fuel G start later cur rest :
  search (S fuel) G start later (cur :: rest) =
  flat_map
    (fun v =>
       if String.eqb v start then [rev (cur :: rest)]
       else if Py.list_in v later && negb (Py.list_in v (cur :: rest))
            then search fuel G start later (v :: cur :: rest)
            else [])
    (successors G cur).
Proof. reflexivity. Qed.

Lemma search_sound G start later fuel : forall cur rest tl c,
  NoDup (cur :: rest) ->
  rev (cur :: rest) = start :: tl ->
  is_path G (rev (cur :: rest)) ->
  In c (search fuel G start later (cur :: rest)) ->
  NoDup c /\ is_cycle G c.
Proof.
  induction fuel as [| fuel IH]; intros cur rest tl c Hnd Hhd Hp Hc.
  - contradiction.
  - rewrite search_step in Hc. apply in_flat_map in Hc as [v [Hv Hc]].
    apply successors_In in Hv.
    destruct (String.eqb v start) eqn:Ev.
    + apply String.eqb_eq in Ev. subst v.
      destruct Hc as [Hc | []]. subst c. split.
      * apply NoDup_rev, Hnd.
      * unfold is_cycle. rewrite Hhd. rewrite <- Hhd.
        simpl rev in *. now apply is_path_snoc.
    + destruct (Py.list_in v later && negb (Py.list_in v (cur :: rest))) eqn:Eg;
        [| contradiction].
      apply andb_true_iff in Eg as [_ Eg]. apply negb_true_iff in Eg.
      apply list_in_not_In in Eg.
      apply (IH v (cur :: rest) (tl ++ [v]) c).
      * now constructor.
      * change (rev (v :: cur :: rest)) with (rev (cur :: rest) ++ [v]).
        now rewrite Hhd.
      * change (rev (v :: cur :: rest)) with (rev (cur :: rest) ++ [v]).
        simpl rev in *. now apply is_path_snoc.
      * exact Hc.
Qed.

Lemma enumerate_cycles_spec : simple_cycles_spec enumerate_cycles.
Proof.
  intros G c. unfold enumerate_cycles. generalize (nodes G) as starts.
  induction starts as [| s later IH]; simpl; [contradiction |].
  intros H. apply in_app_or in H as [H | H]; [| now apply IH].
  apply (search_sound G s later (S (length later)) s [] [] c).
  - constructor; [intros [] | constructor].
  - reflexivity.
  - exact I.
  - exact H.
Qed.

Lemma detect_cycles_bounded_simple_witness :
  detect_cycles reference_runtime
    (build_graph (table_of [("A", "B"); ("B", "A"); ("B", "C"); ("C", "A");
                            ("A", "A")]))
  = [["A"; "B"; "C"]]
  /\ NoDup ["A"; "B"; "C"].
Proof.
  split; [reflexivity |].
  apply (proj1 (detect_cycles_bounded_simple reference_runtime
                  enumerate_cycles_spec)
           (build_graph (table_of [("A", "B"); ("B", "A"); ("B", "C");
                                   ("C", "A"); ("A", "A")]))).
  vm_compute. now left.
Defined.

(** ** Ring records *)

Lemma ring_loop_from cycles : forall st,
  rings_so_far (fold_left ring_step cycles st) =
    rings_so_far st ++ number_rings (ring_counter st) cycles
  /\ ring_counter (fold_left ring_step cycles st) =
       ring_counter st + length cycles.
Proof.
  induction cycles as [| c cycles IH]; intros st; simpl.
  - rewrite app_nil_r. split; [reflexivity | lia].
  - destruct (IH (ring_step st c)) as [Hr Hc]. rewrite Hr, Hc. simpl.
    rewrite <- app_assoc. simpl. rewrite Nat.add_1_r.
    split; [reflexivity | lia].
Qed.

Lemma ring_loop_rings cycles :
  rings_so_far (ring_loop cycles) = number_rings 1 cycles.
Proof.
  unfold ring_loop. now rewrite (proj1 (ring_loop_from cycles _)).
Qed.


Lemma number_rings_length cycles : forall start,
  length (number_rings start cycles) = length cycles.
Proof.
  induction cycles as [| c cycles IH]; intros start; simpl; [| rewrite IH]; reflexivity.
Qed.

Lemma analyse_fraud_rings R df :
  fraud_rings (analyse R df) =
  number_rings 1 (detect_cycles R (build_graph df)).
Proof. unfold analyse. simpl. apply ring_loop_rings. Qed.


Example format_03d_examples :
  Py.format_03d 1 = "001" /\ Py.format_03d 42 = "042"
  /\ Py.format_03d 999 = "999" /\ Py.format_03d 1000 = "1000".
Proof. repeat split. Qed.

(** ** Key order and content of a dictionary *)

Lemma dedup_first_ext l : forall s1 s2,
  (forall x, In x s1 <-> In x s2) ->
  Py.dedup_first s1 l = Py.dedup_first s2 l.
Proof.
  induction l as [| x l IH]; intros s1 s2 E; simpl; [reflexivity |].
  rewrite (list_in_ext x s1 s2 E).
  destruct (Py.list_in x s2); [now apply IH |].
  f_equal. apply IH. intros y. simpl. now rewrite E.
Qed.

Lemma fold_add_key l : forall ks,
  fold_left add_key l ks = ks ++ Py.dedup_first ks l.
Proof.
  induction l as [| x l IH]; intros ks; simpl.
  - now rewrite app_nil_r.
  - rewrite IH. unfold add_key. destruct (Py.list_in x ks); [reflexivity |].
    rewrite <- app_assoc. simpl. do 2 f_equal.
    apply dedup_first_ext. intros y. rewrite in_app_iff. simpl. tauto.
Qed.

Lemma fold_add_key_first_seen l : fold_left add_key l [] = first_seen l.
Proof. now rewrite fold_add_key. Qed.

Lemma add_key_NoDup ks k : NoDup ks -> NoDup (add_key ks k).
Proof.
  intros H. unfold add_key. destruct (Py.list_in k ks) eqn:E; [assumption |].
  apply list_in_not_In in E. apply NoDup_app; [assumption | | ].
  - constructor; [intros [] | constructor].
  - intros x Hx [<- | []]. contradiction.
Qed.

Lemma fold_add_key_NoDup l : forall ks,
  NoDup ks -> NoDup (fold_left add_key l ks).
Proof.
  induction l as [| x l IH]; intros ks H; simpl; [assumption |].
  apply IH, add_key_NoDup, H.
Qed.

Lemma first_seen_NoDup l : NoDup (first_seen l).
Proof.
  rewrite <- fold_add_key_first_seen. apply fold_add_key_NoDup. constructor.
Qed.

Lemma fold_add_key_In l : forall ks x,
  In x (fold_left add_key l ks) <-> In x ks \/ In x l.
Proof.
  induction l as [| y l IH]; intros ks x; simpl; [tauto |].
  rewrite IH. unfold add_key. destruct (Py.list_in y ks) eqn:E.
  - apply list_in_In in E. split; [tauto |].
    intros [H | [-> | H]]; auto.
  - rewrite in_app_iff. simpl. tauto.
Qed.

Lemma first_seen_In l x : In x (first_seen l) <-> In x l.
Proof.
  rewrite <- fold_add_key_first_seen, fold_add_key_In. simpl. tauto.
Qed.

Lemma keys_extend d k vs :
  Dict.keys (Dict.extend d k vs) = add_key (Dict.keys d) k.
Proof.
  unfold add_key, Py.list_in.
  induction d as [| [k' v] d IH]; simpl; [reflexivity |].
  destruct (String.eqb k k'); simpl; [reflexivity |].
  rewrite IH. now destruct (existsb (String.eqb k) (Dict.keys d)).
Qed.

Lemma get_extend d k vs k' :
  Dict.get (Dict.extend d k vs) k' =
  if String.eqb k k' then Dict.get d k' ++ vs else Dict.get d k'.
Proof.
  induction d as [| [k0 v0] d IH]; simpl.
  - rewrite (String.eqb_sym k' k). now destruct (String.eqb k k').
  - destruct (String.eqb k k0) eqn:E0; simpl.
    + apply String.eqb_eq in E0. subst k0. rewrite (String.eqb_sym k' k).
      now destruct (String.eqb k k').
    + rewrite IH. destruct (String.eqb k' k0) eqn:E1; [| reflexivity].
      apply String.eqb_eq in E1. subst k0. now rewrite E0.
Qed.

Lemma keys_of_ops ops : forall d,
  Dict.keys (of_ops ops d) = fold_left add_key (map fst ops) (Dict.keys d).
Proof.
  induction ops as [| op ops IH]; intros d; simpl; [reflexivity |].
  unfold of_ops in *. simpl. now rewrite IH, keys_extend.
Qed.

Lemma get_of_ops ops : forall d k,
  Dict.get (of_ops ops d) k = Dict.get d k ++ gather ops k.
Proof.
  induction ops as [| op ops IH]; intros d k; simpl.
  - now rewrite app_nil_r.
  - unfold of_ops in *. simpl. rewrite IH, get_extend.
    destruct (String.eqb (fst op) k); [now rewrite app_assoc | reflexivity].
Qed.

Lemma of_ops_app ops1 ops2 d :
  of_ops (ops1 ++ ops2) d = of_ops ops2 (of_ops ops1 d).
Proof. apply fold_left_app. Qed.

Lemma gather_app ops1 ops2 k :
  gather (ops1 ++ ops2) k = gather ops1 k ++ gather ops2 k.
Proof. apply flat_map_app. Qed.

(** With distinct keys, a dictionary is its keys with what is read there. *)
Lemma items_get d :
  NoDup (Dict.keys d) ->
  Dict.items d = map (fun k => (k, Dict.get d k)) (Dict.keys d).
Proof.
  unfold Dict.items.
  induction d as [| [k v] d IH]; simpl; intros H; [reflexivity |].
  inversion H as [| ? ? Hk Hd]; subst.
  rewrite String.eqb_refl. f_equal.
  etransitivity; [apply IH; assumption |].
  apply map_ext_in. intros k' Hk'.
  destruct (String.eqb k' k) eqn:E; [| reflexivity].
  apply String.eqb_eq in E. subst. contradiction.
Qed.

Lemma get_not_key d k : ~ In k (Dict.keys d) -> Dict.get d k = [].
Proof.
  induction d as [| [k' v] d IH]; simpl; intros H; [reflexivity |].
  destruct (String.eqb k k') eqn:E.
  - apply String.eqb_eq in E. subst. tauto.
  - apply IH. tauto.
Qed.

Lemma gather_items d k :
  NoDup (Dict.keys d) -> gather (Dict.items d) k = Dict.get d k.
Proof.
  unfold Dict.items, gather.
  induction d as [| [k' v] d IH]; simpl; intros H; [reflexivity |].
  inversion H as [| ? ? Hk Hd]; subst.
  rewrite (String.eqb_sym k k'). destruct (String.eqb k' k) eqn:E.
  - apply String.eqb_eq in E. subst k'.
    rewrite IH by assumption. rewrite get_not_key by assumption.
    apply app_nil_r.
  - simpl. now apply IH.
Qed.

(** ** The graph of a table *)

Lemma nodes_add_node G n : nodes (add_node G n) = add_key (nodes G) n.
Proof. unfold add_node, add_key. now destruct (Py.list_in n (nodes G)). Qed.

Lemma edges_add_node G n : edges (add_node G n) = edges G.
Proof. unfold add_node. now destruct (Py.list_in n (nodes G)). Qed.

Lemma nodes_add_edge G u v :
  nodes (add_edge G u v) = add_key (add_key (nodes G) u) v.
Proof.
  unfold add_edge. destruct (has_edge _ u v); simpl;
    now rewrite !nodes_add_node.
Qed.

Lemma edges_add_edge G u v :
  edges (add_edge G u v) = add_edge_key (edges G) (u, v).
Proof.
  unfold add_edge, add_edge_key, has_edge. rewrite !edges_add_node.
  destruct (existsb (edge_eqb (u, v)) (edges G)); simpl;
    rewrite ?edges_add_node; reflexivity.
Qed.

Lemma build_graph_transfers df :
  build_graph df =
  fold_left (fun G t => add_edge G (fst t) (snd t)) (transfers df) empty_graph.
Proof.
  unfold build_graph, transfers. generalize empty_graph.
  induction (iterrows df) as [| row l IH]; intros G; simpl; [reflexivity |].
  apply IH.
Qed.

Lemma nodes_fold_add_edge ts : forall G,
  nodes (fold_left (fun G t => add_edge G (fst t) (snd t)) ts G) =
  fold_left add_key (flat_map (fun t => [fst t; snd t]) ts) (nodes G).
Proof.
  induction ts as [| t ts IH]; intros G; simpl; [reflexivity |].
  now rewrite IH, nodes_add_edge.
Qed.

Lemma edges_fold_add_edge ts : forall G,
  edges (fold_left (fun G t => add_edge G (fst t) (snd t)) ts G) =
  fold_left add_edge_key ts (edges G).
Proof.
  induction ts as [| [u v] ts IH]; intros G; simpl; [reflexivity |].
  now rewrite IH, edges_add_edge.
Qed.

(** The nodes of the graph are the accounts of the table, in order of first
    appearance. *)
Lemma nodes_build_graph df : nodes (build_graph df) = first_appearance df.
Proof.
  rewrite build_graph_transfers, nodes_fold_add_edge. simpl.
  apply fold_add_key_first_seen.
Qed.

Lemma edges_build_graph df :
  edges (build_graph df) = fold_left add_edge_key (transfers df) [].
Proof. now rewrite build_graph_transfers, edges_fold_add_edge. Qed.

(** Degrees count distinct counterparties.  [sel] picks the end point the
    degree is taken at and [other] the counterparty: receiver and sender for
    the in-degree, sender and receiver for the out-degree. *)
Section Degree.

Variables sel other : string * string -> string.
Hypothesis edge_eqb_sel : forall e f,
  edge_eqb e f = String.eqb (sel e) (sel f) && String.eqb (other e) (other f).
Variable n : string.

Lemma existsb_edge_counterparty e es :
  sel e = n -> existsb (edge_eqb e) es = Py.list_in (other e) (counterparties sel other n es).
Proof.
  intros He. unfold counterparties, Py.list_in.
  induction es as [| f es IH]; simpl; [reflexivity |].
  rewrite edge_eqb_sel, He, (String.eqb_sym n (sel f)).
  destruct (String.eqb (sel f) n); simpl; now rewrite IH.
Qed.

Lemma counterparties_add_edge_key es e :
  counterparties sel other n (add_edge_key es e) =
  if String.eqb (sel e) n then add_key (counterparties sel other n es) (other e) else counterparties sel other n es.
Proof.
  unfold add_edge_key, add_key.
  destruct (String.eqb (sel e) n) eqn:E.
  - apply String.eqb_eq in E. rewrite <- (existsb_edge_counterparty e es E).
    destruct (existsb (edge_eqb e) es); [reflexivity |].
    unfold counterparties. rewrite filter_app, map_app. simpl.
    subst n. now rewrite String.eqb_refl.
  - destruct (existsb (edge_eqb e) es); [reflexivity |].
    unfold counterparties. rewrite filter_app, map_app. simpl. rewrite E.
    apply app_nil_r.
Qed.

Lemma counterparties_fold ts : forall es,
  counterparties sel other n (fold_left add_edge_key ts es) = fold_left add_key (counterparties sel other n ts) (counterparties sel other n es).
Proof.
  induction ts as [| t ts IH]; intros es; simpl; [reflexivity |].
  rewrite IH, counterparties_add_edge_key.
  assert (E : counterparties sel other n (t :: ts) =
              if String.eqb (sel t) n then other t :: counterparties sel other n ts else counterparties sel other n ts).
  { unfold counterparties. simpl. now destruct (String.eqb (sel t) n). }
  rewrite E. destruct (String.eqb (sel t) n); reflexivity.
Qed.

Lemma degree_distinct ts :
  length (filter (fun e => String.eqb (sel e) n)
                 (fold_left add_edge_key ts [])) =
  length (first_seen (map other (filter (fun e => String.eqb (sel e) n) ts))).
Proof.
  rewrite <- fold_add_key_first_seen.
  pose proof (counterparties_fold ts []) as E. unfold counterparties in E. simpl in E.
  rewrite <- E. now rewrite length_map.
Qed.

End Degree.

Lemma in_degree_distinct df n :
  in_degree (build_graph df) n = length (distinct_senders df n).
Proof.
  unfold in_degree, distinct_senders. rewrite edges_build_graph.
  apply (degree_distinct snd fst).
  intros e f. unfold edge_eqb. apply andb_comm.
Qed.

Lemma out_degree_distinct df n :
  out_degree (build_graph df) n = length (distinct_receivers df n).
Proof.
  unfold out_degree, distinct_receivers. rewrite edges_build_graph.
  apply (degree_distinct fst snd).
  intros e f. reflexivity.
Qed.

(** ** The fan detector *)

Lemma gather_In ops k p :
  In p (gather ops k) <-> exists vs, In (k, vs) ops /\ In p vs.
Proof.
  unfold gather. rewrite in_flat_map. split.
  - intros [[k' vs] [Hop Hp]]. simpl in Hp.
    destruct (String.eqb k' k) eqn:E; [| contradiction].
    apply String.eqb_eq in E. subst. now exists vs.
  - intros [vs [Hop Hp]]. exists (k, vs). split; [assumption |].
    simpl. now rewrite String.eqb_refl.
Qed.

Lemma fan_step_of_ops G n d :
  (let fan_patterns :=
     if (10 <=? in_degree G n)%nat then Dict.append d n "fan_in" else d in
   if (10 <=? out_degree G n)%nat
   then Dict.append fan_patterns n "fan_out" else fan_patterns)
  = of_ops (map (fun p => (n, [p])) (fan_labels G n)) d.
Proof.
  unfold fan_labels.
  destruct (10 <=? in_degree G n)%nat, (10 <=? out_degree G n)%nat; reflexivity.
Qed.

Lemma detect_fan_patterns_of_ops G :
  detect_fan_patterns G = of_ops (fan_ops G (nodes G)) Dict.empty.
Proof.
  unfold detect_fan_patterns. generalize Dict.empty.
  induction (nodes G) as [| n ns IH]; intros d; [reflexivity |].
  cbn [fold_left]. rewrite IH.
  unfold fan_ops. cbn [flat_map]. rewrite of_ops_app. f_equal.
  apply fan_step_of_ops.
Qed.

Lemma gather_fan_ops G ns k p :
  In p (gather (fan_ops G ns) k) <-> In k ns /\ In p (fan_labels G k).
Proof.
  rewrite gather_In. unfold fan_ops. split.
  - intros [vs [Hop Hp]]. apply in_flat_map in Hop as [n [Hn Hop]].
    apply in_map_iff in Hop as [q [E Hq]]. inversion E; subst.
    destruct Hp as [<- | []]. tauto.
  - intros [Hk Hp]. exists [p]. split; [| now left].
    apply in_flat_map. exists k. split; [assumption |].
    apply in_map_iff. now exists p.
Qed.

Lemma fan_labels_In G n p :
  In p (fan_labels G n) <->
  (p = "fan_in" /\ 10 <= in_degree G n) \/ (p = "fan_out" /\ 10 <= out_degree G n).
Proof.
  unfold fan_labels. rewrite in_app_iff.
  assert (A : forall (b : bool) q,
             In p (if b then [q] else []) <-> b = true /\ p = q).
  { intros [] q; simpl; intuition congruence. }
  rewrite !A, !Nat.leb_le. tauto.
Qed.

Lemma fan_patterns_get G k p :
  In p (Dict.get (detect_fan_patterns G) k) <->
  In k (nodes G) /\ In p (fan_labels G k).
Proof.
  rewrite detect_fan_patterns_of_ops, get_of_ops. simpl.
  apply gather_fan_ops.
Qed.

Lemma distinct_senders_node df n :
  distinct_senders df n <> [] -> In n (first_appearance df).
Proof.
  unfold distinct_senders, first_appearance. intros H.
  destruct (first_seen _) as [| u l] eqn:E; [congruence |].
  assert (Hu : In u (first_seen (map fst (filter (fun t => String.eqb (snd t) n)
                                                 (transfers df)))))
    by (rewrite E; now left).
  apply first_seen_In, in_map_iff in Hu as [t [_ Ht]].
  apply filter_In in Ht as [Ht Hn]. apply String.eqb_eq in Hn.
  apply first_seen_In, in_flat_map. exists t. split; [assumption |].
  simpl. auto.
Qed.

Lemma distinct_receivers_node df n :
  distinct_receivers df n <> [] -> In n (first_appearance df).
Proof.
  unfold distinct_receivers, first_appearance. intros H.
  destruct (first_seen _) as [| u l] eqn:E; [congruence |].
  assert (Hu : In u (first_seen (map snd (filter (fun t => String.eqb (fst t) n)
                                                 (transfers df)))))
    by (rewrite E; now left).
  apply first_seen_In, in_map_iff in Hu as [t [_ Ht]].
  apply filter_In in Ht as [Ht Hn]. apply String.eqb_eq in Hn.
  apply first_seen_In, in_flat_map. exists t. split; [assumption |].
  simpl. auto.
Qed.

(** C8: the fan detector, run on the graph of a table, labels an account
    [fan_in] exactly when at least 10 distinct accounts send to it, and
    [fan_out] exactly when it sends to at least 10 distinct accounts; the
    in-degree and out-degree it tests are these numbers of distinct
    counterparties, however many transfers join the same pair. *)
Theorem fan_patterns_count_distinct_counterparties (df : DataFrame) (n : string) :
  let G := build_graph df in
  (In "fan_in" (Dict.get (detect_fan_patterns G) n) <->
     10 <= length (distinct_senders df n))
  /\ (In "fan_out" (Dict.get (detect_fan_patterns G) n) <->
        10 <= length (distinct_receivers df n))
  /\ in_degree G n = length (distinct_senders df n)
  /\ out_degree G n = length (distinct_receivers df n).
Proof.
  intros G. unfold G.
  split; [| split; [| split]];
    [| | apply in_degree_distinct | apply out_degree_distinct].
  - rewrite fan_patterns_get, fan_labels_In, nodes_build_graph,
      in_degree_distinct. split.
    + intros [_ [[_ H] | [H _]]]; [assumption | discriminate].
    + intros H. split; [| now left].
      apply distinct_senders_node. intros E. rewrite E in H. simpl in H. lia.
  - rewrite fan_patterns_get, fan_labels_In, nodes_build_graph,
      out_degree_distinct. split.
    + intros [_ [[H _] | [_ H]]]; [discriminate | assumption].
    + intros H. split; [| now right].
      apply distinct_receivers_node. intros E. rewrite E in H. simpl in H. lia.
Qed.

(** Ten transfers from one sender do not make a hub; ten senders do. *)
Example fan_in_needs_distinct_senders :
  Dict.get (detect_fan_patterns
              (build_graph (table_of (repeat ("S", "H") 10)))) "H" = []
  /\ Dict.get (detect_fan_patterns
                 (build_graph (table_of
                    [("S0", "H"); ("S1", "H"); ("S2", "H"); ("S3", "H");
                     ("S4", "H"); ("S5", "H"); ("S6", "H"); ("S7", "H");
                     ("S8", "H"); ("S9", "H")]))) "H" = ["fan_in"].
Proof. split; reflexivity. Qed.

(** ** The evidence dictionary *)

Lemma label_loop_of_ops label c : forall d,
  fold_left (fun d account => Dict.append d account label) c d =
  of_ops (map (fun account => (account, [label])) c) d.
Proof.
  induction c as [| a c IH]; intros d; simpl; [reflexivity |].
  now rewrite IH.
Qed.

Lemma ring_loop_dict cycles : forall st,
  suspicious_dict (fold_left ring_step cycles st) =
  of_ops (cycle_ops cycles) (suspicious_dict st).
Proof.
  induction cycles as [| c cycles IH]; intros st; [reflexivity |].
  cbn [fold_left]. rewrite IH. unfold cycle_ops. cbn [flat_map].
  rewrite of_ops_app. f_equal. apply label_loop_of_ops.
Qed.

Lemma cycle_ops_keys cycles : map fst (cycle_ops cycles) = concat cycles.
Proof.
  unfold cycle_ops. induction cycles as [| c cycles IH]; simpl; [reflexivity |].
  rewrite map_app, IH, map_map. simpl. now rewrite map_id.
Qed.

Lemma gather_cycle_ops cycles k p :
  In p (gather (cycle_ops cycles) k) <->
  exists c, In c cycles /\ In k c /\ p = cycle_label c.
Proof.
  rewrite gather_In. unfold cycle_ops. split.
  - intros [vs [Hop Hp]]. apply in_flat_map in Hop as [c [Hc Hop]].
    apply in_map_iff in Hop as [a [E Ha]]. inversion E; subst.
    destruct Hp as [<- | []]. now exists c.
  - intros [c [Hc [Hk ->]]]. exists [cycle_label c]. split; [| now left].
    apply in_flat_map. exists c. split; [assumption |].
    apply in_map_iff. now exists k.
Qed.

(** The keys the fan detector creates: the flagged nodes, in node order. *)
Lemma fan_keys G ns : forall ks,
  NoDup ns -> (forall x, In x ns -> ~ In x ks) ->
  Py.dedup_first ks (map fst (fan_ops G ns)) =
  filter (fun n => (10 <=? in_degree G n)%nat || (10 <=? out_degree G n)%nat) ns.
Proof.
  induction ns as [| n ns IH]; intros ks Hnd Hks; [reflexivity |].
  inversion Hnd as [| ? ? Hn Hns]; subst.
  assert (Hin : Py.list_in n ks = false).
  { apply list_in_not_In, Hks. now left. }
  assert (IH1 : Py.dedup_first ks (map fst (fan_ops G ns)) =
                filter (fun n => (10 <=? in_degree G n)%nat
                                 || (10 <=? out_degree G n)%nat) ns).
  { apply IH; [assumption |]. intros x Hx. apply Hks. now right. }
  assert (IH2 : Py.dedup_first (n :: ks) (map fst (fan_ops G ns)) =
                filter (fun n => (10 <=? in_degree G n)%nat
                                 || (10 <=? out_degree G n)%nat) ns).
  { apply IH; [assumption |]. intros x Hx [<- | H]; [contradiction |].
    revert H. apply Hks. now right. }
  unfold fan_ops in *. cbn [flat_map filter]. rewrite map_app.
  set (rest := map fst (flat_map _ ns)) in *.
  unfold fan_labels.
  destruct (10 <=? in_degree G n)%nat, (10 <=? out_degree G n)%nat;
    cbn [map app fst orb Py.dedup_first]; rewrite ?Hin.
  - assert (Hhd : Py.list_in n (n :: ks) = true)
      by (apply list_in_In; now left).
    rewrite Hhd. now rewrite IH2.
  - now rewrite IH2.
  - now rewrite IH2.
  - exact IH1.
Qed.

Lemma nodes_build_graph_NoDup df : NoDup (nodes (build_graph df)).
Proof. rewrite nodes_build_graph. apply first_seen_NoDup. Qed.

Lemma detect_fan_patterns_keys df :
  Dict.keys (detect_fan_patterns (build_graph df)) =
  filter (flagged df) (first_appearance df).
Proof.
  rewrite detect_fan_patterns_of_ops, keys_of_ops, fold_add_key. simpl.
  rewrite fan_keys.
  - rewrite nodes_build_graph. apply filter_ext. intros n. unfold flagged.
    now rewrite in_degree_distinct, out_degree_distinct.
  - apply nodes_build_graph_NoDup.
  - intros x _ [].
Qed.

Lemma detect_fan_patterns_keys_NoDup df :
  NoDup (Dict.keys (detect_fan_patterns (build_graph df))).
Proof.
  rewrite detect_fan_patterns_of_ops, keys_of_ops.
  apply fold_add_key_NoDup. constructor.
Qed.

(** The dictionary the report is built from. *)
Lemma merged_dict R df :
  let G := build_graph df in
  let d := merge_fan_patterns
             (suspicious_dict (ring_loop (detect_cycles R G)))
             (detect_fan_patterns G) in
  Dict.keys d = evidence_order R df
  /\ forall k, Dict.get d k = evidence R df k.
Proof.
  intros G d. unfold d, merge_fan_patterns, ring_loop.
  rewrite ring_loop_dict. cbn [suspicious_dict].
  fold (of_ops (Dict.items (detect_fan_patterns G))
               (of_ops (cycle_ops (detect_cycles R G)) Dict.empty)).
  split.
  - rewrite !keys_of_ops, cycle_ops_keys.
    change (map fst (Dict.items (detect_fan_patterns G)))
      with (Dict.keys (detect_fan_patterns G)).
    unfold G. rewrite detect_fan_patterns_keys.
    unfold evidence_order. rewrite <- fold_add_key_first_seen.
    now rewrite fold_left_app.
  - intros k. rewrite !get_of_ops. simpl.
    rewrite gather_items by apply detect_fan_patterns_keys_NoDup.
    unfold evidence. fold G. f_equal.
    now rewrite detect_fan_patterns_of_ops, get_of_ops.
Qed.

Lemma evidence_order_NoDup R df : NoDup (evidence_order R df).
Proof. apply first_seen_NoDup. Qed.

(** The accounts of a report: one record per account with evidence, in
    evidence order, then sorted by score. *)
Lemma analyse_suspicious_accounts R df :
  suspicious_accounts (analyse R df) =
  sorted_reverse Account.suspicion_score
    (map (account_of R df) (evidence_order R df)).
Proof.
  unfold analyse. cbn [suspicious_accounts]. f_equal.
  destruct (merged_dict R df) as [Hk Hg]. cbv zeta in Hk, Hg.
  unfold build_accounts. rewrite items_get by (rewrite Hk; apply first_seen_NoDup).
  rewrite map_map, Hk. apply map_ext. intros k.
  rewrite Hg, ring_loop_rings. reflexivity.
Qed.

(** ** Sorting *)

Section Sorting.

Context {A : Type} (key : A -> Z).

Lemma insert_reverse_perm x l :
  Permutation (insert_reverse key x l) (x :: l).
Proof.
  induction l as [| y l IH]; simpl; [reflexivity |].
  destruct (key x <? key y)%Z; [| reflexivity].
  rewrite IH. apply perm_swap.
Qed.

Lemma sorted_reverse_perm l : Permutation (sorted_reverse key l) l.
Proof.
  induction l as [| x l IH]; simpl; [reflexivity |].
  rewrite insert_reverse_perm. now apply perm_skip.
Qed.

Lemma sorted_reverse_In l x : In x (sorted_reverse key l) <-> In x l.
Proof.
  split; apply Permutation_in;
    [apply sorted_reverse_perm | symmetry; apply sorted_reverse_perm].
Qed.

Lemma insert_reverse_sorted x l :
  StronglySorted (fun a b => (key b <= key a)%Z) l ->
  StronglySorted (fun a b => (key b <= key a)%Z) (insert_reverse key x l).
Proof.
  induction 1 as [| y l Hs IH Hy]; simpl.
  - constructor; constructor.
  - destruct (Z.ltb_spec (key x) (key y)).
    + constructor; [assumption |].
      rewrite Forall_forall in *. intros z Hz.
      apply (Permutation_in _ (insert_reverse_perm x l)) in Hz.
      destruct Hz as [<- | Hz]; [lia | now apply Hy].
    + constructor; [now constructor |].
      constructor; [assumption |].
      rewrite Forall_forall in *. intros z Hz. specialize (Hy z Hz). lia.
Qed.

Lemma sorted_reverse_sorted l :
  StronglySorted (fun a b => (key b <= key a)%Z) (sorted_reverse key l).
Proof.
  induction l as [| x l IH]; simpl; [constructor |].
  now apply insert_reverse_sorted.
Qed.

(** Stability: the members with a given key keep their order. *)
Lemma insert_reverse_filter s x l :
  filter (fun a => (key a =? s)%Z) (insert_reverse key x l) =
  filter (fun a => (key a =? s)%Z) (x :: l).
Proof.
  induction l as [| y l IH]; [reflexivity |].
  cbn [insert_reverse]. destruct (Z.ltb_spec (key x) (key y)); [| reflexivity].
  cbn [filter] in *. rewrite IH.
  destruct (Z.eqb_spec (key x) s), (Z.eqb_spec (key y) s); try reflexivity.
  lia.
Qed.

Lemma sorted_reverse_stable s l :
  filter (fun a => (key a =? s)%Z) (sorted_reverse key l) =
  filter (fun a => (key a =? s)%Z) l.
Proof.
  induction l as [| x l IH]; [reflexivity |].
  cbn [sorted_reverse]. rewrite insert_reverse_filter.
  cbn [filter]. now rewrite IH.
Qed.

End Sorting.

(** ** Relative order *)

Lemma before_In {A} (l : list A) x y : before l x y -> In x l /\ In y l.
Proof.
  induction 1 as [x y l Hy | z x y l _ [IHx IHy]]; simpl; auto.
Qed.

Lemma before_map {A B} (g : A -> B) l x y :
  before l x y -> before (map g l) (g x) (g y).
Proof.
  induction 1 as [x y l Hy | z x y l _ IH]; simpl.
  - apply before_here. now apply in_map.
  - now apply before_later.
Qed.

Lemma before_filter {A} (f : A -> bool) l x y :
  f x = true -> f y = true -> before l x y -> before (filter f l) x y.
Proof.
  intros Hx Hy. induction 1 as [x y l Hl | z x y l _ IH]; simpl.
  - rewrite Hx. apply before_here. apply filter_In. now split.
  - destruct (f z); [apply before_later |]; now apply IH.
Qed.

Lemma before_unfilter {A} (f : A -> bool) l x y :
  before (filter f l) x y -> before l x y.
Proof.
  induction l as [| z l IH]; simpl; intros H; [inversion H |].
  destruct (f z).
  - inversion H; subst.
    + apply before_here. eapply proj1. apply filter_In. eassumption.
    + apply before_later. now apply IH.
  - apply before_later. now apply IH.
Qed.

(** After the stable sort, ties are in the order they had before it. *)
Lemma sorted_reverse_ties {A} (key : A -> Z) l x y :
  key x = key y ->
  (before (sorted_reverse key l) x y <-> before l x y).
Proof.
  intros E.
  assert (Hx : (key x =? key x)%Z = true) by apply Z.eqb_refl.
  assert (Hy : (key y =? key x)%Z = true) by (rewrite E; apply Z.eqb_refl).
  split; intros H.
  - apply (before_unfilter (fun a => (key a =? key x)%Z)).
    rewrite <- (sorted_reverse_stable key (key x) l).
    now apply before_filter.
  - apply (before_unfilter (fun a => (key a =? key x)%Z)).
    rewrite (sorted_reverse_stable key (key x) l).
    now apply before_filter.
Qed.

Lemma account_of_id R df l : map Account.account_id (map (account_of R df) l) = l.
Proof. rewrite map_map. simpl. apply map_id. Qed.

Lemma suspicious_accounts_In R df x :
  In x (suspicious_accounts (analyse R df)) <->
  exists k, In k (evidence_order R df) /\ x = account_of R df k.
Proof.
  rewrite analyse_suspicious_accounts, sorted_reverse_In, in_map_iff.
  split; intros [k [H1 H2]]; exists k; auto.
Qed.

Lemma ties_follow_evidence_order R df :
  ties_follow (evidence_order R df) (suspicious_accounts (analyse R df)).
Proof.
  intros x y Hx Hy E.
  apply suspicious_accounts_In in Hx as [kx [Hkx ->]].
  apply suspicious_accounts_In in Hy as [ky [Hky ->]].
  rewrite analyse_suspicious_accounts, (sorted_reverse_ties _ _ _ _ E).
  cbn [account_of Account.account_id]. split; intros H.
  - apply (before_map Account.account_id) in H.
    now rewrite account_of_id in H.
  - now apply before_map.
Qed.

(** C3 (amended): the accounts of a report are sorted by score in
    non-increasing order, and accounts with equal scores keep the order in
    which they entered the evidence dictionary: members of the detected
    cycles in detection order first, then the remaining accounts with a fan
    label in order of first appearance in the table. *)
Theorem suspicious_accounts_sorted_stable (R : Runtime) (df : DataFrame) :
  non_increasing (suspicious_accounts (analyse R df))
  /\ ties_follow (evidence_order R df) (suspicious_accounts (analyse R df)).
Proof.
  split.
  - rewrite analyse_suspicious_accounts. apply sorted_reverse_sorted.
  - apply ties_follow_evidence_order.
Qed.

(** ** Rings and their members *)

Lemma number_rings_In cycles : forall start ring,
  In ring (number_rings start cycles) ->
  exists number, ring = ring_of number (Ring.member_accounts ring)
                 /\ In (Ring.member_accounts ring) cycles.
Proof.
  induction cycles as [| c cycles IH]; intros start ring; simpl; [contradiction |].
  intros [<- | H].
  - exists start. simpl. auto.
  - destruct (IH _ _ H) as [number [E Hc]]. exists number. auto.
Qed.

Lemma number_rings_members cycles : forall start,
  map Ring.member_accounts (number_rings start cycles) = cycles.
Proof.
  induction cycles as [| c cycles IH]; intros start; simpl; [reflexivity |].
  now rewrite IH.
Qed.

Lemma evidence_order_In R df k :
  In k (evidence_order R df) <->
  (exists c, In c (detect_cycles R (build_graph df)) /\ In k c)
  \/ (In k (first_appearance df) /\ flagged df k = true).
Proof.
  unfold evidence_order. rewrite first_seen_In, in_app_iff, in_concat, filter_In.
  reflexivity.
Qed.

Lemma evidence_In R df k p :
  In p (evidence R df k) <->
  (exists c, In c (detect_cycles R (build_graph df)) /\ In k c
             /\ p = cycle_label c)
  \/ (In k (nodes (build_graph df)) /\ In p (fan_labels (build_graph df) k)).
Proof.
  unfold evidence. cbv zeta.
  now rewrite in_app_iff, gather_cycle_ops, gather_fan_ops.
Qed.

Lemma cycle_label_not_fan c :
  cycle_label c <> "fan_in" /\ cycle_label c <> "fan_out"
  /\ String.prefix "cycle_length_" (cycle_label c) = true.
Proof.
  unfold cycle_label. repeat split; try discriminate.
  destruct (Py.str_of_nat (length c)); reflexivity.
Qed.

(** C4: every member of a ring of the report is listed among the suspicious
    accounts, with the label [cycle_length_k] among its patterns, [k] being
    the number of members of that ring. *)
Theorem ring_members_are_suspicious (R : Runtime) (df : DataFrame)
    (ring : Ring.t) (account : string) :
  list_set_spec (list_set R) ->
  In ring (fraud_rings (analyse R df)) ->
  In account (Ring.member_accounts ring) ->
  exists a,
    In a (suspicious_accounts (analyse R df))
    /\ Account.account_id a = account
    /\ In ("cycle_length_"
           ++ Py.str_of_nat (length (Ring.member_accounts ring)))%string
          (Account.detected_patterns a).
Proof.
  intros Hset Hring Hacc. rewrite analyse_fraud_rings in Hring.
  apply number_rings_In in Hring as [_ [_ Hc]].
  exists (account_of R df account). split; [| split].
  - apply suspicious_accounts_In. exists account. split; [| reflexivity].
    apply evidence_order_In. left. now exists (Ring.member_accounts ring).
  - reflexivity.
  - cbn [account_of Account.detected_patterns]. apply Hset.
    apply evidence_In. left. now exists (Ring.member_accounts ring).
Qed.

(** ** Ring lookup *)

Lemma find_ring_id_spec rings account :
  (exists i ring,
      nth_error rings i = Some ring
      /\ In account (Ring.member_accounts ring)
      /\ (forall j earlier, j < i -> nth_error rings j = Some earlier ->
            ~ In account (Ring.member_accounts earlier))
      /\ find_ring_id rings account = Ring.ring_id ring)
  \/ ((forall ring, In ring rings -> ~ In account (Ring.member_accounts ring))
      /\ find_ring_id rings account = "N/A").
Proof.
  induction rings as [| r rings IH]; simpl.
  - right. split; [intros ? [] | reflexivity].
  - destruct (Py.list_in account (Ring.member_accounts r)) eqn:E.
    + left. exists 0, r. apply list_in_In in E.
      repeat split; auto. intros j earlier Hj. lia.
    + apply list_in_not_In in E.
      destruct IH as [[i [ring [Hi [Hm [Hfirst Hid]]]]] | [Hnone Hid]].
      * left. exists (S i), ring. repeat split; auto.
        intros [| j] earlier Hj He; simpl in He.
        -- now inversion He; subst.
        -- apply (Hfirst j); [lia | assumption].
      * right. split; [| assumption].
        intros ring [<- | H]; auto.
Qed.

(** C6: the [ring_id] of a suspicious account is that of the first ring of
    the report, in list order, that has the account among its members, and
    is "N/A" when no ring has it. *)
Theorem account_ring_id_first_match (R : Runtime) (df : DataFrame)
    (a : Account.t) :
  In a (suspicious_accounts (analyse R df)) ->
  let rings := fraud_rings (analyse R df) in
  (exists i ring,
      nth_error rings i = Some ring
      /\ In (Account.account_id a) (Ring.member_accounts ring)
      /\ (forall j earlier, j < i -> nth_error rings j = Some earlier ->
            ~ In (Account.account_id a) (Ring.member_accounts earlier))
      /\ Account.ring_id a = Ring.ring_id ring)
  \/ ((forall ring, In ring rings ->
         ~ In (Account.account_id a) (Ring.member_accounts ring))
      /\ Account.ring_id a = "N/A").
Proof.
  intros Ha rings. unfold rings. rewrite analyse_fraud_rings.
  apply suspicious_accounts_In in Ha as [k [_ ->]].
  cbn [account_of Account.account_id Account.ring_id].
  apply find_ring_id_spec.
Qed.

Lemma first_seen_spec : list_set_spec first_seen.
Proof.
  intros l. split; [apply first_seen_NoDup | intros x; apply first_seen_In].
Qed.

Lemma last_seen_spec : list_set_spec last_seen.
Proof.
  intros l. unfold last_seen. split.
  - apply NoDup_rev, first_seen_NoDup.
  - intros x. rewrite <- in_rev. apply first_seen_In.
Qed.

Lemma ring_members_are_suspicious_witness :
  exists a,
    In a (suspicious_accounts
            (analyse reference_runtime
               (table_of [("A", "B"); ("B", "C"); ("C", "A")])))
    /\ Account.account_id a = "B"
    /\ In "cycle_length_3" (Account.detected_patterns a).
Proof.
  apply (ring_members_are_suspicious reference_runtime
           (table_of [("A", "B"); ("B", "C"); ("C", "A")])
           (ring_of 1 ["A"; "B"; "C"]) "B").
  - apply first_seen_spec.
  - vm_compute. now left.
  - simpl. auto.
Defined.

Lemma account_ring_id_first_match_witness :
  let df := table_of [("A", "B"); ("B", "C"); ("C", "A"); ("C", "D"); ("D", "A")] in
  let a := account_of reference_runtime df "D" in
  let rings := fraud_rings (analyse reference_runtime df) in
  (exists i ring,
      nth_error rings i = Some ring
      /\ In (Account.account_id a) (Ring.member_accounts ring)
      /\ (forall j earlier, j < i -> nth_error rings j = Some earlier ->
            ~ In (Account.account_id a) (Ring.member_accounts earlier))
      /\ Account.ring_id a = Ring.ring_id ring)
  \/ ((forall ring, In ring rings ->
         ~ In (Account.account_id a) (Ring.member_accounts ring))
      /\ Account.ring_id a = "N/A").
Proof.
  intros df a.
  apply (account_ring_id_first_match reference_runtime df a).
  vm_compute. auto 10.
Defined.

Example ring_id_of_account_in_second_ring :
  let df := table_of [("A", "B"); ("B", "C"); ("C", "A"); ("C", "D"); ("D", "A")] in
  fraud_rings (analyse reference_runtime df) =
    [ring_of 1 ["A"; "B"; "C"]; ring_of 2 ["A"; "B"; "C"; "D"]]
  /\ Account.ring_id (account_of reference_runtime df "A") = "RING_001"
  /\ Account.ring_id (account_of reference_runtime df "D") = "RING_002".
Proof. repeat split. Qed.

Lemma ring_of_id_not_na number c : Ring.ring_id (ring_of number c) <> "N/A".
Proof. discriminate. Qed.

Lemma cycle_has_ring cycles c : forall start,
  In c cycles ->
  exists ring, In ring (number_rings start cycles) /\ Ring.member_accounts ring = c.
Proof.
  intros start Hc. rewrite <- (number_rings_members cycles start) in Hc.
  apply in_map_iff in Hc as [ring [E H]]. now exists ring.
Qed.

(** C10: a suspicious account that has a label of the form
    [cycle_length_k] among its patterns has a [ring_id] other than "N/A",
    namely that of a ring of the report it is a member of; an account whose
    patterns are only [fan_in] and [fan_out] has the [ring_id] "N/A". *)
Theorem cycle_label_means_ring (R : Runtime) (df : DataFrame) (a : Account.t) :
  list_set_spec (list_set R) ->
  In a (suspicious_accounts (analyse R df)) ->
  ((exists p, In p (Account.detected_patterns a)
              /\ String.prefix "cycle_length_" p = true) ->
   Account.ring_id a <> "N/A"
   /\ exists ring,
        In ring (fraud_rings (analyse R df))
        /\ Account.ring_id a = Ring.ring_id ring
        /\ In (Account.account_id a) (Ring.member_accounts ring))
  /\ ((forall p, In p (Account.detected_patterns a) ->
         p = "fan_in" \/ p = "fan_out") ->
      Account.ring_id a = "N/A").
Proof.
  intros Hset Ha. rewrite analyse_fraud_rings.
  apply suspicious_accounts_In in Ha as [k [_ ->]].
  cbn [account_of Account.account_id Account.ring_id Account.detected_patterns].
  set (rings := number_rings 1 (detect_cycles R (build_graph df))).
  destruct (find_ring_id_spec rings k)
    as [[i [ring [Hi [Hm [_ Hid]]]]] | [Hnone Hid]].
  - apply nth_error_In in Hi.
    destruct (number_rings_In _ _ _ Hi) as [number [E Hc]].
    split.
    + intros _. split.
      * rewrite Hid, E. apply ring_of_id_not_na.
      * now exists ring.
    + intros Hfan.
      destruct (cycle_label_not_fan (Ring.member_accounts ring)) as [N1 [N2 _]].
      destruct (Hfan (cycle_label (Ring.member_accounts ring))); try contradiction.
      apply Hset, evidence_In. left. now exists (Ring.member_accounts ring).
  - split; [| intros _; exact Hid].
    intros [p [Hp Hpre]]. exfalso.
    apply Hset, evidence_In in Hp as [[c [Hc [Hk _]]] | [_ Hp]].
    + destruct (cycle_has_ring _ c 1 Hc) as [ring [Hring Hmem]].
      apply (Hnone ring Hring). now rewrite Hmem.
    + apply fan_labels_In in Hp as [[-> _] | [-> _]]; discriminate.
Qed.

Lemma cycle_label_means_ring_witness :
  let df := table_of [("A", "B"); ("B", "C"); ("C", "A")] in
  Account.ring_id (account_of reference_runtime df "C") <> "N/A".
Proof.
  intros df.
  assert (Ha : In (account_of reference_runtime df "C")
                  (suspicious_accounts (analyse reference_runtime df))).
  { vm_compute. auto 10. }
  apply (proj1 (cycle_label_means_ring reference_runtime df _
                  first_seen_spec Ha)).
  exists "cycle_length_3". split; [vm_compute; auto | reflexivity].
Defined.

(** ** The header check *)

Lemma issubset_false required cols :
  (exists c, In c required /\ ~ In c cols) -> issubset required cols = false.
Proof.
  intros [c [Hc Hn]]. unfold issubset.
  destruct (forallb _ required) eqn:E; [| reflexivity].
  rewrite forallb_forall in E. specialize (E c Hc).
  apply list_in_In in E. contradiction.
Qed.

(** C7: when one of the five required columns is missing from the table,
    the route answers with the format error alone, whatever the rows are:
    no graph is built, no analysis runs and no result is written. *)
Theorem missing_column_fails_fast (R : Runtime) (df : DataFrame)
    (disk : option ResultJson) :
  (exists c, In c ["transaction_id"; "sender_id"; "receiver_id"; "amount";
                   "timestamp"]
             /\ ~ In c (columns df)) ->
  upload_file R df disk = (InvalidCsv invalid_csv_message, disk)
  /\ forall R' rows',
       upload_file R' {| columns := columns df; rows := rows' |} disk =
       upload_file R df disk.
Proof.
  intros H. unfold upload_file. cbn [columns].
  fold required_columns in H.
  now rewrite (issubset_false _ _ H).
Qed.

Lemma missing_column_fails_fast_witness :
  upload_file reference_runtime
    {| columns := ["transaction_id"; "sender_id"; "receiver_id"; "amount"];
       rows := [["T1"; "A"; "B"; "10.0"]] |} None
  = (InvalidCsv "Invalid CSV format. Please follow required structure.", None).
Proof.
  apply (missing_column_fails_fast reference_runtime
           {| columns := ["transaction_id"; "sender_id"; "receiver_id"; "amount"];
              rows := [["T1"; "A"; "B"; "10.0"]] |} None).
  exists "timestamp". split.
  - simpl. auto 10.
  - simpl. intros [H | [H | [H | [H | []]]]]; discriminate H.
Defined.

(** ** Two runs on the same table *)

Lemma insert_reverse_Forall2 {A} (key : A -> Z) (P : A -> A -> Prop) x y l1 l2 :
  (forall a b, P a b -> key a = key b) ->
  P x y -> Forall2 P l1 l2 ->
  Forall2 P (insert_reverse key x l1) (insert_reverse key y l2).
Proof.
  intros Hkey Hxy H. induction H as [| a b l1 l2 Hab H IH]; simpl.
  - now repeat constructor.
  - rewrite (Hkey _ _ Hxy), (Hkey _ _ Hab).
    destruct (key y <? key b)%Z; now repeat constructor.
Qed.

Lemma sorted_reverse_Forall2 {A} (key : A -> Z) (P : A -> A -> Prop) l1 l2 :
  (forall a b, P a b -> key a = key b) ->
  Forall2 P l1 l2 ->
  Forall2 P (sorted_reverse key l1) (sorted_reverse key l2).
Proof.
  intros Hkey H. induction H; simpl; [constructor |].
  now apply insert_reverse_Forall2.
Qed.

Lemma Forall2_map_same {A B} (P : B -> B -> Prop) (f g : A -> B) l :
  (forall x, P (f x) (g x)) -> Forall2 P (map f l) (map g l).
Proof. intros H. induction l; simpl; constructor; auto. Qed.

Lemma list_set_Permutation ls1 ls2 l :
  list_set_spec ls1 -> list_set_spec ls2 -> Permutation (ls1 l) (ls2 l).
Proof.
  intros H1 H2. destruct (H1 l) as [N1 E1], (H2 l) as [N2 E2].
  apply NoDup_Permutation; [assumption | assumption |].
  intros x. now rewrite E1, E2.
Qed.

(** C9 (amended): two runs on the same table that get the same cycles from
    [nx.simple_cycles] produce the same rings, and the same suspicious
    accounts in the same order with the same identifiers, scores and ring
    ids; the patterns of an account are the same labels, listed in an order
    that [list(set(...))] chooses and that may differ between the runs.  If
    the runs also agree on that order, the accounts are identical. *)
Theorem runs_agree_up_to_label_order (R1 R2 : Runtime) (df : DataFrame) :
  simple_cycles R1 (build_graph df) = simple_cycles R2 (build_graph df) ->
  list_set_spec (list_set R1) ->
  list_set_spec (list_set R2) ->
  fraud_rings (analyse R1 df) = fraud_rings (analyse R2 df)
  /\ Forall2 same_up_to_label_order
       (suspicious_accounts (analyse R1 df))
       (suspicious_accounts (analyse R2 df))
  /\ ((forall l, list_set R1 l = list_set R2 l) ->
      suspicious_accounts (analyse R1 df) = suspicious_accounts (analyse R2 df)).
Proof.
  intros Hc H1 H2.
  assert (Ed : detect_cycles R1 (build_graph df) = detect_cycles R2 (build_graph df))
    by (unfold detect_cycles; now rewrite Hc).
  assert (Eo : evidence_order R1 df = evidence_order R2 df)
    by (unfold evidence_order; now rewrite Ed).
  assert (Ee : forall k, evidence R1 df k = evidence R2 df k)
    by (intros k; unfold evidence; now rewrite Ed).
  split; [| split].
  - now rewrite !analyse_fraud_rings, Ed.
  - rewrite !analyse_suspicious_accounts, Eo.
    apply sorted_reverse_Forall2; [now intros a b [_ [E _]] |].
    apply Forall2_map_same. intros k. unfold same_up_to_label_order, account_of.
    cbn [Account.account_id Account.suspicion_score Account.ring_id
         Account.detected_patterns].
    rewrite Ee, Ed. repeat split. now apply list_set_Permutation.
  - intros El. rewrite !analyse_suspicious_accounts, Eo. f_equal.
    apply map_ext. intros k. unfold account_of. now rewrite Ee, Ed, El.
Qed.

Lemma reference_runtime_admissible : admissible reference_runtime.
Proof. split; [apply enumerate_cycles_spec | apply first_seen_spec]. Qed.

Lemma reversed_runtime_admissible : admissible reversed_runtime.
Proof. split; [apply enumerate_cycles_spec | apply last_seen_spec]. Qed.

Lemma runs_agree_up_to_label_order_witness :
  fraud_rings (analyse reference_runtime hub_table) =
    fraud_rings (analyse reversed_runtime hub_table)
  /\ Forall2 same_up_to_label_order
       (suspicious_accounts (analyse reference_runtime hub_table))
       (suspicious_accounts (analyse reversed_runtime hub_table)).
Proof.
  destruct (runs_agree_up_to_label_order reference_runtime reversed_runtime
              hub_table eq_refl first_seen_spec last_seen_spec) as [Hr [Ha _]].
  split; assumption.
Defined.

(** C9 as stated fails: two runs that both behave as documented, and that
    even find the same cycles, list the two labels of the hub in different
    orders. *)
Lemma runs_differ_in_label_order :
  admissible reference_runtime
  /\ admissible reversed_runtime
  /\ map Account.detected_patterns
       (suspicious_accounts (analyse reference_runtime hub_table))
     = [["fan_in"; "fan_out"]]
  /\ map Account.detected_patterns
       (suspicious_accounts (analyse reversed_runtime hub_table))
     = [["fan_out"; "fan_in"]]
  /\ suspicious_accounts (analyse reference_runtime hub_table)
     <> suspicious_accounts (analyse reversed_runtime hub_table).
Proof.
  split; [apply reference_runtime_admissible |].
  split; [apply reversed_runtime_admissible |].
  split; [vm_compute; reflexivity |].
  split; [vm_compute; reflexivity |].
  vm_compute. discriminate.
Qed.

(** ** Ties and first appearance *)

Lemma in_degree_le G k : in_degree G k <= length (edges G).
Proof. apply filter_length_le. Qed.

Lemma out_degree_le G k : out_degree G k <= length (edges G).
Proof. apply filter_length_le. Qed.

(** An account with cycle labels only scores 50. *)
Lemma calculate_score_cycle_only l :
  l <> [] -> (forall p, In p l -> exists c, p = cycle_label c) ->
  calculate_score l = 50%Z.
Proof.
  intros Hne Hl. unfold calculate_score.
  assert (Hc : existsb (fun p => Py.str_in "cycle" p) l = true).
  { destruct l as [| p l]; [congruence |].
    destruct (Hl p (or_introl eq_refl)) as [c ->]. reflexivity. }
  assert (Hnot : forall q, q = "fan_in" \/ q = "fan_out" -> Py.list_in q l = false).
  { intros q Hq. apply list_in_not_In. intros Hin.
    destruct (Hl q Hin) as [c E].
    destruct (cycle_label_not_fan c) as [N1 [N2 _]].
    destruct Hq; subst q; congruence. }
  rewrite Hc, (Hnot "fan_in"), (Hnot "fan_out") by auto. reflexivity.
Qed.

(** On [ring_table] no account has a fan label, so every member of a
    detected cycle scores 50. *)
Lemma ring_table_score R c rest k :
  detect_cycles R (build_graph ring_table) = c :: rest ->
  In k c ->
  Account.suspicion_score (account_of R ring_table k) = 50%Z.
Proof.
  intros Hd Hk. cbn [account_of Account.suspicion_score].
  apply calculate_score_cycle_only.
  - intros E.
    assert (H : In (cycle_label c) (evidence R ring_table k)).
    { apply evidence_In. left. exists c. rewrite Hd. simpl. auto. }
    rewrite E in H. contradiction.
  - intros p Hp. apply evidence_In in Hp as [[c' [_ [_ ->]]] | [_ Hp]].
    + now exists c'.
    + exfalso. apply fan_labels_In in Hp.
      pose proof (in_degree_le (build_graph ring_table) k) as H1.
      pose proof (out_degree_le (build_graph ring_table) k) as H2.
      change (length (edges (build_graph ring_table))) with 4 in H1, H2.
      lia.
Qed.

Lemma ring_table_order R c rest :
  detect_cycles R (build_graph ring_table) = c :: rest ->
  exists tail, evidence_order R ring_table = first_seen c ++ tail.
Proof.
  intros Hd. unfold evidence_order, first_seen. rewrite Hd. cbn [concat].
  rewrite <- app_assoc.
  rewrite <- (fold_add_key_first_seen (c ++ _)), fold_left_app, !fold_add_key.
  cbn [app]. eauto.
Qed.

(** Whichever node [nx.simple_cycles] starts the cycle of [ring_table] at,
    two of its accounts tie and are listed against their order of first
    appearance. *)
Lemma ring_table_ties R c rest :
  detect_cycles R (build_graph ring_table) = c :: rest ->
  In c [["A"; "B"; "C"]; ["B"; "C"; "A"]; ["C"; "A"; "B"]] ->
  ~ ties_follow (first_appearance ring_table)
      (suspicious_accounts (analyse R ring_table)).
Proof.
  intros Hd Hc Hclaim.
  destruct (ring_table_order R c rest Hd) as [tail Eo].
  assert (Hin : forall k, In k c ->
            In (account_of R ring_table k)
               (suspicious_accounts (analyse R ring_table))).
  { intros k Hk. apply suspicious_accounts_In. exists k. split; [| reflexivity].
    apply evidence_order_In. left. exists c. rewrite Hd. simpl. auto. }
  assert (Hfail : forall x y,
            In x c -> In y c ->
            before (first_seen c ++ tail) x y ->
            ~ before ["A"; "Z"; "C"; "B"] x y -> False).
  { intros x y Hx Hy Hb Hn. apply Hn.
    change ["A"; "Z"; "C"; "B"] with (first_appearance ring_table).
    apply (Hclaim (account_of R ring_table x) (account_of R ring_table y));
      [now apply Hin | now apply Hin | |].
    - now rewrite (ring_table_score R c rest x Hd Hx),
                  (ring_table_score R c rest y Hd Hy).
    - apply ties_follow_evidence_order; [now apply Hin | now apply Hin | |].
      + now rewrite (ring_table_score R c rest x Hd Hx),
                    (ring_table_score R c rest y Hd Hy).
      + cbn [account_of Account.account_id]. now rewrite Eo. }
  simpl in Hc. destruct Hc as [<- | [<- | [<- | []]]].
  - apply (Hfail "B" "C"); simpl; auto.
    + apply before_later, before_here. now left.
    + intros H. refute_before.
  - apply (Hfail "B" "C"); simpl; auto.
    + apply before_here. now left.
    + intros H. refute_before.
  - apply (Hfail "C" "A"); simpl; auto.
    + apply before_here. now left.
    + intros H. refute_before.
Qed.

(** C3 as stated fails: the accounts of [ring_table] first appear in the
    order A, Z, C, B; the three members of its cycle tie at 50 and are
    listed A, B, C, the order of the detected cycle. *)
Lemma ties_not_in_first_appearance_order :
  first_appearance ring_table = ["A"; "Z"; "C"; "B"]
  /\ map Account.account_id
       (suspicious_accounts (analyse reference_runtime ring_table))
     = ["A"; "B"; "C"]
  /\ map Account.suspicion_score
       (suspicious_accounts (analyse reference_runtime ring_table))
     = [50; 50; 50]%Z
  /\ ~ (non_increasing (suspicious_accounts (analyse reference_runtime ring_table))
        /\ ties_follow (first_appearance ring_table)
             (suspicious_accounts (analyse reference_runtime ring_table))).
Proof.
  repeat split.
  intros [_ H]. revert H.
  apply (ring_table_ties reference_runtime ["A"; "B"; "C"] []).
  - reflexivity.
  - simpl. auto.
Qed.

(** ** The route on a well-formed table *)


(** A single 3-cycle: one ring, three accounts at 50. *)
Example scenario_three_cycle :
  let report := analyse reference_runtime
                  (table_of [("A", "B"); ("B", "C"); ("C", "A")]) in
  fraud_rings report = [ring_of 1 ["A"; "B"; "C"]]
  /\ map Account.account_id (suspicious_accounts report) = ["A"; "B"; "C"]
  /\ map Account.suspicion_score (suspicious_accounts report) = [50; 50; 50]%Z
  /\ map Account.ring_id (suspicious_accounts report)
     = ["RING_001"; "RING_001"; "RING_001"].
Proof. repeat split. Qed.

(** A hub without a cycle: both fan labels, score 40, no ring. *)
Example scenario_hub :
  let report := analyse reference_runtime hub_table in
  fraud_rings report = []
  /\ suspicious_accounts report =
       [{| Account.account_id := "H";
           Account.suspicion_score := 40;
           Account.detected_patterns := ["fan_in"; "fan_out"];
           Account.ring_id := "N/A" |}].
Proof. split; reflexivity. Qed.

(** The empty table: nothing to report. *)
Example scenario_empty :
  let report := analyse reference_runtime (table_of []) in
  fraud_rings report = [] /\ suspicious_accounts report = []
  /\ total_accounts_analyzed (summary report) = 0.
Proof. repeat split. Qed.

(** * Further properties of the code *)

(** ** Scores *)

(** X1: whatever the labels, the score is one of 0, 20, 40, 50, 70 and 90:
    the sum never reaches the cap of 100. *)
Theorem calculate_score_values (patterns : list string) :
  In (calculate_score patterns) [0; 20; 40; 50; 70; 90]%Z
  /\ (calculate_score patterns <= 90)%Z.
Proof.
  unfold calculate_score.
  destruct (existsb _ patterns), (Py.list_in "fan_in" patterns),
    (Py.list_in "fan_out" patterns); simpl; split; auto 10; lia.
Qed.

Lemma existsb_incl {A} (f : A -> bool) l l' :
  (forall x, In x l -> In x l') -> existsb f l = true -> existsb f l' = true.
Proof.
  intros H E. apply existsb_exists in E as [x [Hx Hf]].
  apply existsb_exists. exists x. auto.
Qed.

(** X2: more evidence never lowers the score: if every label of [patterns]
    also occurs in [patterns'], the score of [patterns'] is at least that of
    [patterns]. *)
Theorem calculate_score_monotone (patterns patterns' : list string) :
  (forall p, In p patterns -> In p patterns') ->
  (calculate_score patterns <= calculate_score patterns')%Z.
Proof.
  intros H. unfold calculate_score.
  pose proof (existsb_incl (fun p => Py.str_in "cycle" p) _ _ H) as Hc.
  pose proof (existsb_incl (String.eqb "fan_in") _ _ H) as Hi.
  pose proof (existsb_incl (String.eqb "fan_out") _ _ H) as Ho.
  unfold Py.list_in.
  destruct (existsb (fun p => Py.str_in "cycle" p) patterns),
    (existsb (String.eqb "fan_in") patterns),
    (existsb (String.eqb "fan_out") patterns);
    rewrite ?Hc, ?Hi, ?Ho by reflexivity;
    destruct (existsb (fun p => Py.str_in "cycle" p) patterns'),
      (existsb (String.eqb "fan_in") patterns'),
      (existsb (String.eqb "fan_out") patterns'); simpl; lia.
Qed.

Lemma calculate_score_monotone_witness :
  (calculate_score ["fan_in"] <= calculate_score ["cycle_length_3"; "fan_in"])%Z.
Proof.
  apply calculate_score_monotone.
  intros p [<- | []]. simpl. auto.
Defined.

(** ** The transaction graph *)

Lemma edge_eqb_eq e f : edge_eqb e f = true <-> e = f.
Proof.
  destruct e as [a b], f as [c d]. unfold edge_eqb. simpl.
  rewrite andb_true_iff, !String.eqb_eq. split.
  - now intros [-> ->].
  - intros E. inversion E. auto.
Qed.

Lemma existsb_edge_In e es : existsb (edge_eqb e) es = true <-> In e es.
Proof.
  rewrite existsb_exists. split.
  - intros [f [Hf E]]. apply edge_eqb_eq in E. now subst.
  - intros H. exists e. split; [assumption | now apply edge_eqb_eq].
Qed.

Lemma add_edge_key_In es e f : In f (add_edge_key es e) <-> In f es \/ f = e.
Proof.
  unfold add_edge_key. destruct (existsb (edge_eqb e) es) eqn:E.
  - apply existsb_edge_In in E. split; [auto |]. intros [H | ->]; assumption.
  - rewrite in_app_iff. simpl. intuition.
Qed.

Lemma add_edge_key_NoDup es e : NoDup es -> NoDup (add_edge_key es e).
Proof.
  intros H. unfold add_edge_key. destruct (existsb (edge_eqb e) es) eqn:E;
    [assumption |].
  apply NoDup_app; [assumption | |].
  - constructor; [intros [] | constructor].
  - intros x Hx [<- | []]. apply existsb_edge_In in Hx. congruence.
Qed.

Lemma fold_add_edge_key_In ts : forall es f,
  In f (fold_left add_edge_key ts es) <-> In f es \/ In f ts.
Proof.
  induction ts as [| t ts IH]; intros es f; simpl; [tauto |].
  rewrite IH, add_edge_key_In. intuition.
Qed.

Lemma fold_add_edge_key_NoDup ts : forall es,
  NoDup es -> NoDup (fold_left add_edge_key ts es).
Proof.
  induction ts as [| t ts IH]; intros es H; simpl; [assumption |].
  apply IH, add_edge_key_NoDup, H.
Qed.

Lemma build_graph_graph_of df : build_graph df = graph_of (transfers df).
Proof. apply build_graph_transfers. Qed.

Lemma first_appearance_In df n :
  In n (first_appearance df) <->
  exists t, In t (transfers df) /\ (n = fst t \/ n = snd t).
Proof.
  unfold first_appearance. rewrite first_seen_In, in_flat_map.
  split; intros [t [Ht H]]; exists t; split; auto; simpl in *; intuition.
Qed.

(** X3: the graph built from a table has the accounts of the table as its
    nodes, each once, in order of first appearance (sender before receiver),
    and the distinct (sender, receiver) pairs of the rows as its edges, each
    once; both end points of every edge are nodes. *)
Theorem build_graph_nodes_and_edges (df : DataFrame) :
  let G := build_graph df in
  nodes G = first_appearance df
  /\ NoDup (nodes G)
  /\ (forall n, In n (nodes G) <->
        exists t, In t (transfers df) /\ (n = fst t \/ n = snd t))
  /\ NoDup (edges G)
  /\ (forall u v, In (u, v) (edges G) <-> In (u, v) (transfers df))
  /\ (forall u v, In (u, v) (edges G) -> In u (nodes G) /\ In v (nodes G)).
Proof.
  intros G. unfold G.
  assert (He : forall u v,
             In (u, v) (edges (build_graph df)) <-> In (u, v) (transfers df)).
  { intros u v. rewrite edges_build_graph, fold_add_edge_key_In. simpl. tauto. }
  split; [apply nodes_build_graph |].
  split; [apply nodes_build_graph_NoDup |].
  split; [intros n; rewrite nodes_build_graph; apply first_appearance_In |].
  split; [rewrite edges_build_graph; apply fold_add_edge_key_NoDup; constructor |].
  split; [exact He |].
  intros u v H. apply He in H. rewrite nodes_build_graph.
  split; apply first_appearance_In; exists (u, v); simpl; auto.
Qed.

Lemma analyse_graph R df df' :
  build_graph df = build_graph df' -> analyse R df = analyse R df'.
Proof. intros H. unfold analyse. now rewrite H. Qed.



Lemma add_edge_present G u v :
  In (u, v) (edges G) -> In u (nodes G) -> In v (nodes G) ->
  add_edge G u v = G.
Proof.
  intros He Hu Hv. unfold add_edge, add_node.
  apply list_in_In in Hu. rewrite Hu.
  apply list_in_In in Hv. rewrite Hv.
  unfold has_edge. apply existsb_edge_In in He. now rewrite He.
Qed.

Lemma graph_of_repeated ts1 t ts2 :
  In t ts1 -> graph_of (ts1 ++ t :: ts2) = graph_of (ts1 ++ ts2).
Proof.
  intros Ht. unfold graph_of. rewrite !fold_left_app. simpl. f_equal.
  destruct t as [u v]. simpl. apply add_edge_present.
  - rewrite edges_fold_add_edge, fold_add_edge_key_In. now right.
  - rewrite nodes_fold_add_edge, fold_add_key_In. right.
    apply in_flat_map. exists (u, v). simpl. auto.
  - rewrite nodes_fold_add_edge, fold_add_key_In. right.
    apply in_flat_map. exists (u, v). simpl. auto.
Qed.

(** X5: a row that repeats the sender and receiver of an earlier row changes
    neither the graph nor the report. *)
Theorem repeated_transfer_changes_nothing (R : Runtime) (df df' : DataFrame)
    (ts1 ts2 : list (string * string)) (t : string * string) :
  transfers df = ts1 ++ ts2 ->
  transfers df' = ts1 ++ t :: ts2 ->
  In t ts1 ->
  build_graph df' = build_graph df /\ analyse R df' = analyse R df.
Proof.
  intros E E' Ht.
  assert (H : build_graph df' = build_graph df).
  { rewrite !build_graph_graph_of, E, E'. now apply graph_of_repeated. }
  split; [exact H | now apply analyse_graph].
Qed.

Lemma repeated_transfer_changes_nothing_witness :
  analyse reference_runtime
    (table_of [("A", "B"); ("B", "C"); ("A", "B"); ("C", "A")])
  = analyse reference_runtime (table_of [("A", "B"); ("B", "C"); ("C", "A")]).
Proof.
  apply (repeated_transfer_changes_nothing reference_runtime
           (table_of [("A", "B"); ("B", "C"); ("C", "A")])
           (table_of [("A", "B"); ("B", "C"); ("A", "B"); ("C", "A")])
           [("A", "B"); ("B", "C")] [("C", "A")] ("A", "B")).
  - reflexivity.
  - reflexivity.
  - simpl. auto.
Defined.

(** ** The fan detector on any graph *)

Lemma gather_labels n labels k :
  gather (map (fun p => (n, [p])) labels) k =
  if String.eqb n k then labels else [].
Proof.
  unfold gather. induction labels as [| p labels IH]; simpl.
  - now destruct (String.eqb n k).
  - rewrite IH. now destruct (String.eqb n k).
Qed.

Lemma gather_fan_ops_exact G ns k :
  NoDup ns ->
  gather (fan_ops G ns) k = if Py.list_in k ns then fan_labels G k else [].
Proof.
  induction ns as [| n ns IH]; intros Hnd; [reflexivity |].
  inversion Hnd as [| ? ? Hn Hns]; subst.
  unfold fan_ops in *. cbn [flat_map]. rewrite gather_app, gather_labels.
  rewrite (IH Hns). unfold Py.list_in. cbn [existsb].
  rewrite (String.eqb_sym k n). destruct (String.eqb n k) eqn:E.
  - apply String.eqb_eq in E. subst k.
    apply list_in_not_In in Hn. unfold Py.list_in in Hn. rewrite Hn.
    cbn [orb]. apply app_nil_r.
  - reflexivity.
Qed.

(** X6: on a graph whose node list has no repetition, the fan detector
    returns one entry per node that reaches 10 in in-degree or out-degree,
    in node order; the entry of such a node is ["fan_in"], ["fan_out"] or
    ["fan_in", "fan_out"] according to which degrees reach 10, and a node
    below both thresholds (like any non-node) has no entry. *)
Theorem detect_fan_patterns_entries (G : DiGraph) :
  NoDup (nodes G) ->
  Dict.keys (detect_fan_patterns G) =
    filter (fun n => (10 <=? in_degree G n)%nat || (10 <=? out_degree G n)%nat)
           (nodes G)
  /\ (forall n, In n (nodes G) ->
        Dict.get (detect_fan_patterns G) n =
        (if (10 <=? in_degree G n)%nat then ["fan_in"] else [])
        ++ (if (10 <=? out_degree G n)%nat then ["fan_out"] else []))
  /\ (forall n, ~ In n (nodes G) -> Dict.get (detect_fan_patterns G) n = []).
Proof.
  intros Hnd. rewrite detect_fan_patterns_of_ops. split; [| split].
  - rewrite keys_of_ops, fold_add_key. simpl.
    apply fan_keys; [assumption | intros x _ []].
  - intros n Hn. rewrite get_of_ops. simpl.
    rewrite (gather_fan_ops_exact G (nodes G) n Hnd).
    apply list_in_In in Hn. now rewrite Hn.
  - intros n Hn. rewrite get_of_ops. simpl.
    rewrite (gather_fan_ops_exact G (nodes G) n Hnd).
    apply list_in_not_In in Hn. now rewrite Hn.
Qed.

Lemma detect_fan_patterns_entries_witness :
  Dict.keys (detect_fan_patterns (build_graph hub_table)) = ["H"]
  /\ Dict.get (detect_fan_patterns (build_graph hub_table)) "H"
     = ["fan_in"; "fan_out"]
  /\ Dict.get (detect_fan_patterns (build_graph hub_table)) "S0" = [].
Proof.
  destruct (detect_fan_patterns_entries (build_graph hub_table)
              (nodes_build_graph_NoDup hub_table)) as [Hk [Hg _]].
  split; [rewrite Hk; reflexivity |].
  split; [| reflexivity].
  rewrite (Hg "H"); [reflexivity |].
  vm_compute. auto 30.
Defined.

(** ** The accounts of a report *)

Lemma is_path_has_successor G x l :
  is_path G (l ++ [x]) ->
  forall k, In k l -> exists v, In (k, v) (edges G).
Proof.
  induction l as [| a l IH]; intros Hp k Hk; [contradiction |].
  simpl in Hp. destruct (l ++ [x]) as [| b t] eqn:E.
  - destruct l; discriminate.
  - destruct Hp as [Hab Hp]. destruct Hk as [<- | Hk].
    + now exists b.
    + apply IH; assumption.
Qed.

Lemma is_cycle_members G c :
  is_cycle G c -> forall k, In k c -> exists v, In (k, v) (edges G).
Proof.
  destruct c as [| u c]; [contradiction |].
  unfold is_cycle. apply is_path_has_successor.
Qed.

Lemma detected_cycle_members R df c k :
  simple_cycles_spec (simple_cycles R) ->
  In c (detect_cycles R (build_graph df)) -> In k c ->
  In k (first_appearance df).
Proof.
  intros Hspec Hc Hk. apply detect_cycles_In in Hc as [Hc _].
  apply Hspec in Hc as [_ Hc].
  destruct (is_cycle_members _ _ Hc k Hk) as [v Hv].
  rewrite edges_build_graph, fold_add_edge_key_In in Hv.
  destruct Hv as [[] | Hv].
  apply first_appearance_In. exists (k, v). simpl. auto.
Qed.

Lemma suspicious_account_ids R df :
  Permutation
    (map Account.account_id (suspicious_accounts (analyse R df)))
    (evidence_order R df).
Proof.
  rewrite analyse_suspicious_accounts.
  rewrite (Permutation_map Account.account_id
             (sorted_reverse_perm Account.suspicion_score _)).
  now rewrite account_of_id.
Qed.

(** X7: no account is listed twice among the suspicious accounts, and an
    account is listed exactly when it is a member of a detected cycle or is
    an account of the table with at least ten distinct senders or ten
    distinct receivers. *)
Theorem suspicious_accounts_distinct (R : Runtime) (df : DataFrame) :
  NoDup (map Account.account_id (suspicious_accounts (analyse R df)))
  /\ forall k,
       In k (map Account.account_id (suspicious_accounts (analyse R df))) <->
       (exists c, In c (detect_cycles R (build_graph df)) /\ In k c)
       \/ (In k (first_appearance df)
           /\ (10 <= length (distinct_senders df k)
               \/ 10 <= length (distinct_receivers df k))).
Proof.
  split.
  - eapply Permutation_NoDup; [symmetry; apply suspicious_account_ids |].
    apply evidence_order_NoDup.
  - intros k. split; intros H.
    + apply (Permutation_in _ (suspicious_account_ids R df)) in H.
      apply evidence_order_In in H as [H | [H Hf]]; [now left | right].
      split; [assumption |]. unfold flagged in Hf.
      apply orb_true_iff in Hf. now rewrite !Nat.leb_le in Hf.
    + apply (Permutation_in _ (Permutation_sym (suspicious_account_ids R df))).
      apply evidence_order_In. destruct H as [H | [H Hf]]; [now left | right].
      split; [assumption |]. unfold flagged.
      apply orb_true_iff. now rewrite !Nat.leb_le.
Qed.

(** X8: the summary counts what the report holds: the number of distinct
    accounts of the table, the number of listed suspicious accounts and the
    number of rings, one per detected cycle.  When [nx.simple_cycles] only
    returns cycles of the graph, every suspicious account is an account of
    the table, so the number flagged never exceeds the number analysed. *)
Theorem summary_counts (R : Runtime) (df : DataFrame) :
  simple_cycles_spec (simple_cycles R) ->
  let report := analyse R df in
  total_accounts_analyzed (summary report) = length (first_appearance df)
  /\ suspicious_accounts_flagged (summary report)
     = length (suspicious_accounts report)
  /\ fraud_rings_detected (summary report) = length (fraud_rings report)
  /\ fraud_rings_detected (summary report)
     = length (detect_cycles R (build_graph df))
  /\ (forall a, In a (suspicious_accounts report) ->
        In (Account.account_id a) (first_appearance df))
  /\ suspicious_accounts_flagged (summary report)
     <= total_accounts_analyzed (summary report).
Proof.
  intros Hspec report.
  assert (Hin : forall k, In k (evidence_order R df) ->
                          In k (first_appearance df)).
  { intros k Hk. apply evidence_order_In in Hk as [[c [Hc Hk]] | [Hk _]].
    - now apply (detected_cycle_members R df c k).
    - assumption. }
  assert (Et : total_accounts_analyzed (summary report)
               = length (first_appearance df)).
  { unfold report, analyse. cbn [summary total_accounts_analyzed].
    now rewrite nodes_build_graph. }
  assert (Ef : suspicious_accounts_flagged (summary report)
               = length (suspicious_accounts report)) by reflexivity.
  assert (Er : fraud_rings_detected (summary report)
               = length (fraud_rings report)) by reflexivity.
  split; [exact Et |]. split; [exact Ef |]. split; [exact Er |].
  split; [| split].
  - rewrite Er. unfold report.
    now rewrite analyse_fraud_rings, number_rings_length.
  - intros a Ha. apply suspicious_accounts_In in Ha as [k [Hk ->]].
    now apply Hin.
  - rewrite Ef, Et. unfold report.
    rewrite <- (length_map Account.account_id).
    rewrite (Permutation_length (suspicious_account_ids R df)).
    apply NoDup_incl_length; [apply evidence_order_NoDup | exact Hin].
Qed.

Lemma summary_counts_witness :
  let report := analyse reference_runtime ring_table in
  total_accounts_analyzed (summary report) = 4
  /\ suspicious_accounts_flagged (summary report) = 3
  /\ fraud_rings_detected (summary report) = 1.
Proof.
  intros report.
  destruct (summary_counts reference_runtime ring_table enumerate_cycles_spec)
    as [Et [Ef [Er _]]].
  fold report in Et, Ef, Er. rewrite Et, Ef, Er. repeat split.
Defined.

(** ** Scores and labels of the listed accounts *)

Lemma bool_eq_iff (b1 b2 : bool) : (b1 = true <-> b2 = true) -> b1 = b2.
Proof. destruct b1, b2; intuition congruence. Qed.

Lemma in_some_ring_iff rings k :
  in_some_ring rings k = true <->
  exists ring, In ring rings /\ In k (Ring.member_accounts ring).
Proof.
  unfold in_some_ring. rewrite existsb_exists.
  split; intros [ring [H1 H2]]; exists ring; split; auto;
    now apply list_in_In.
Qed.

Lemma in_some_ring_cycles cycles start k :
  in_some_ring (number_rings start cycles) k = true <->
  exists c, In c cycles /\ In k c.
Proof.
  rewrite in_some_ring_iff. split.
  - intros [ring [Hr Hk]]. apply number_rings_In in Hr as [_ [_ Hc]].
    now exists (Ring.member_accounts ring).
  - intros [c [Hc Hk]]. destruct (cycle_has_ring cycles c start Hc)
      as [ring [Hr Hm]].
    exists ring. now rewrite Hm.
Qed.

Lemma str_in_cycle_label_true c : Py.str_in "cycle" (cycle_label c) = true.
Proof. reflexivity. Qed.

Lemma evidence_has_cycle R df k :
  existsb (fun p => Py.str_in "cycle" p) (evidence R df k) =
  in_some_ring (number_rings 1 (detect_cycles R (build_graph df))) k.
Proof.
  apply bool_eq_iff. rewrite in_some_ring_cycles, existsb_exists. split.
  - intros [p [Hp Hs]]. apply evidence_In in Hp as [[c [Hc [Hk _]]] | [_ Hp]].
    + now exists c.
    + apply fan_labels_In in Hp as [[-> _] | [-> _]]; discriminate Hs.
  - intros [c [Hc Hk]]. exists (cycle_label c).
    split; [| apply str_in_cycle_label_true].
    apply evidence_In. left. now exists c.
Qed.

Lemma evidence_has_fan_in R df k :
  Py.list_in "fan_in" (evidence R df k) =
  (10 <=? length (distinct_senders df k))%nat.
Proof.
  apply bool_eq_iff. rewrite list_in_In, evidence_In, Nat.leb_le. split.
  - intros [[c [_ [_ E]]] | [_ Hp]].
    + destruct (cycle_label_not_fan c) as [N _]. congruence.
    + apply fan_labels_In in Hp as [[_ H] | [E _]]; [| discriminate E].
      now rewrite in_degree_distinct in H.
  - intros H. right. split.
    + rewrite nodes_build_graph. apply distinct_senders_node.
      intros E. rewrite E in H. simpl in H. lia.
    + apply fan_labels_In. left. now rewrite in_degree_distinct.
Qed.

Lemma evidence_has_fan_out R df k :
  Py.list_in "fan_out" (evidence R df k) =
  (10 <=? length (distinct_receivers df k))%nat.
Proof.
  apply bool_eq_iff. rewrite list_in_In, evidence_In, Nat.leb_le. split.
  - intros [[c [_ [_ E]]] | [_ Hp]].
    + destruct (cycle_label_not_fan c) as [_ [N _]]. congruence.
    + apply fan_labels_In in Hp as [[E _] | [_ H]]; [discriminate E |].
      now rewrite out_degree_distinct in H.
  - intros H. right. split.
    + rewrite nodes_build_graph. apply distinct_receivers_node.
      intros E. rewrite E in H. simpl in H. lia.
    + apply fan_labels_In. right. now rewrite out_degree_distinct.
Qed.

Lemma account_of_score R df k :
  Account.suspicion_score (account_of R df k) =
  (50 * Z.b2z (in_some_ring (number_rings 1 (detect_cycles R (build_graph df))) k)
   + 20 * Z.b2z (10 <=? length (distinct_senders df k))%nat
   + 20 * Z.b2z (10 <=? length (distinct_receivers df k))%nat)%Z.
Proof.
  cbn [account_of Account.suspicion_score]. unfold calculate_score.
  rewrite evidence_has_cycle, evidence_has_fan_in, evidence_has_fan_out.
  destruct (in_some_ring _ k), (10 <=? length (distinct_senders df k))%nat,
    (10 <=? length (distinct_receivers df k))%nat; reflexivity.
Qed.

(** X9: the score of a listed account is 50 if some ring of the report has
    it as a member, plus 20 if at least ten distinct accounts send to it,
    plus 20 if it sends to at least ten distinct accounts. *)
Theorem account_score_from_table (R : Runtime) (df : DataFrame) (a : Account.t) :
  In a (suspicious_accounts (analyse R df)) ->
  Account.suspicion_score a =
  (50 * Z.b2z (in_some_ring (fraud_rings (analyse R df)) (Account.account_id a))
   + 20 * Z.b2z (10 <=? length (distinct_senders df (Account.account_id a)))%nat
   + 20 * Z.b2z (10 <=? length (distinct_receivers df (Account.account_id a)))%nat)%Z.
Proof.
  intros Ha. apply suspicious_accounts_In in Ha as [k [_ ->]].
  rewrite analyse_fraud_rings. apply account_of_score.
Qed.

Lemma account_score_from_table_witness :
  Account.suspicion_score (account_of reference_runtime ring_table "B") = 50%Z.
Proof.
  rewrite (account_score_from_table reference_runtime ring_table
             (account_of reference_runtime ring_table "B")).
  - reflexivity.
  - vm_compute. auto 10.
Defined.

Lemma cycle_label_bounded c :
  3 <= length c <= 5 -> In (cycle_label c) cycle_labels.
Proof.
  intros H. unfold cycle_label.
  destruct (length c) as [| [| [| [| [| [| n]]]]]]; try lia; simpl; auto.
Qed.

(** X10: the patterns of a listed account are exactly the labels the table
    justifies: [cycle_length_k] for every ring of [k] members that has the
    account, [fan_in] for ten or more distinct senders, [fan_out] for ten or
    more distinct receivers.  No label is listed twice, at least one is
    listed, and every one is among the five pattern labels. *)
Theorem detected_patterns_exact (R : Runtime) (df : DataFrame) (a : Account.t) :
  list_set_spec (list_set R) ->
  In a (suspicious_accounts (analyse R df)) ->
  NoDup (Account.detected_patterns a)
  /\ Account.detected_patterns a <> []
  /\ (forall p, In p (Account.detected_patterns a) -> In p pattern_labels)
  /\ (forall p,
        In p (Account.detected_patterns a) <->
        (exists ring,
            In ring (fraud_rings (analyse R df))
            /\ In (Account.account_id a) (Ring.member_accounts ring)
            /\ p = ("cycle_length_"
                    ++ Py.str_of_nat (length (Ring.member_accounts ring)))%string)
        \/ (p = "fan_in"
            /\ 10 <= length (distinct_senders df (Account.account_id a)))
        \/ (p = "fan_out"
            /\ 10 <= length (distinct_receivers df (Account.account_id a)))).
Proof.
  intros Hset Ha. apply suspicious_accounts_In in Ha as [k [Hk ->]].
  cbn [account_of Account.account_id Account.detected_patterns].
  destruct (Hset (evidence R df k)) as [Hnd Hin].
  assert (Hex : forall p,
            In p (evidence R df k) <->
            (exists ring,
                In ring (fraud_rings (analyse R df))
                /\ In k (Ring.member_accounts ring)
                /\ p = cycle_label (Ring.member_accounts ring))
            \/ (p = "fan_in" /\ 10 <= length (distinct_senders df k))
            \/ (p = "fan_out" /\ 10 <= length (distinct_receivers df k))).
  { intros p. rewrite analyse_fraud_rings. split.
    - intros Hp.
      destruct (string_dec p "fan_in") as [-> | N1];
        [right; left; split; [reflexivity |] |].
      { apply Nat.leb_le. rewrite <- (evidence_has_fan_in R).
        now apply list_in_In. }
      destruct (string_dec p "fan_out") as [-> | N2];
        [right; right; split; [reflexivity |] |].
      { apply Nat.leb_le. rewrite <- (evidence_has_fan_out R).
        now apply list_in_In. }
      left. apply evidence_In in Hp as [[c [Hc [Hkc ->]]] | [_ Hp]].
      + destruct (cycle_has_ring _ c 1 Hc) as [ring [Hr Hm]].
        exists ring. now rewrite Hm.
      + apply fan_labels_In in Hp as [[-> _] | [-> _]]; congruence.
    - intros [[ring [Hr [Hm ->]]] | [[-> H] | [-> H]]].
      + apply number_rings_In in Hr as [_ [_ Hc]].
        apply evidence_In. left. now exists (Ring.member_accounts ring).
      + apply list_in_In. rewrite evidence_has_fan_in. now apply Nat.leb_le.
      + apply list_in_In. rewrite evidence_has_fan_out. now apply Nat.leb_le. }
  split; [exact Hnd |]. split; [| split].
  - intros E.
    assert (Hsome : exists p, In p (evidence R df k)).
    { apply evidence_order_In in Hk as [[c [Hc Hkc]] | [Hkn Hf]].
      - exists (cycle_label c). apply evidence_In. left. now exists c.
      - unfold flagged in Hf. apply orb_true_iff in Hf as [Hf | Hf].
        + exists "fan_in". apply list_in_In. now rewrite evidence_has_fan_in.
        + exists "fan_out". apply list_in_In. now rewrite evidence_has_fan_out. }
    destruct Hsome as [p Hp]. apply Hin in Hp. rewrite E in Hp. contradiction.
  - intros p Hp. apply Hin, evidence_In in Hp as [[c [Hc [_ ->]]] | [_ Hp]].
    + apply detect_cycles_In in Hc as [_ Hc].
      pose proof (cycle_label_bounded c Hc) as H. simpl in H. simpl. tauto.
    + apply fan_labels_In in Hp as [[-> _] | [-> _]]; simpl; auto 10.
  - intros p. rewrite Hin. apply Hex.
Qed.

Lemma detected_patterns_exact_witness :
  NoDup (Account.detected_patterns (account_of reference_runtime hub_table "H"))
  /\ Account.detected_patterns (account_of reference_runtime hub_table "H")
     = ["fan_in"; "fan_out"].
Proof.
  split; [| reflexivity].
  assert (Ha : In (account_of reference_runtime hub_table "H")
                  (suspicious_accounts (analyse reference_runtime hub_table))).
  { vm_compute. auto. }
  destruct (detected_patterns_exact reference_runtime hub_table
              (account_of reference_runtime hub_table "H") first_seen_spec Ha)
    as [Hnd _].
  exact Hnd.
Defined.

(** ** Ring identifiers *)

Lemma uint_of_string_format_03d n :
  option_map Nat.of_uint (NilEmpty.uint_of_string (Py.format_03d n)) = Some n.
Proof.
  unfold Py.format_03d, Py.str_of_nat.
  pose proof (NilEmpty.usu (Nat.to_uint n)) as Hd.
  pose proof (DecimalNat.Unsigned.of_to n) as Hn.
  destruct (3 - String.length (NilEmpty.string_of_uint (Nat.to_uint n)))
    as [| [| [| [| k]]]] eqn:E; [| | | | lia];
    cbn [repeat String.concat String.append NilEmpty.uint_of_string];
    rewrite Hd; cbn [uint_of_char option_map]; f_equal; exact Hn.
Qed.

Lemma ring_number_ring_of n c : ring_number (Ring.ring_id (ring_of n c)) = Some n.
Proof.
  unfold ring_of. cbn [Ring.ring_id]. unfold ring_number.
  cbn [String.append]. apply uint_of_string_format_03d.
Qed.

Lemma number_rings_numbers cycles : forall start,
  map (fun ring => ring_number (Ring.ring_id ring)) (number_rings start cycles)
  = map Some (seq start (length cycles)).
Proof.
  induction cycles as [| c cycles IH]; intros start; [reflexivity |].
  cbn [number_rings map length seq]. now rewrite ring_number_ring_of, IH.
Qed.

Lemma NoDup_map_Some {A} (l : list A) : NoDup l -> NoDup (map Some l).
Proof.
  induction 1 as [| x l Hx Hl IH]; simpl; constructor; [| assumption].
  intros H. apply in_map_iff in H as [y [E Hy]]. inversion E. now subst.
Qed.

(** X11: a ring id can be read back: the digits after "RING_" of the ring at
    (0-based) position [i] denote [i + 1]; hence no two rings of a report
    share their id. *)
Theorem ring_ids_distinct (R : Runtime) (df : DataFrame) :
  let rings := fraud_rings (analyse R df) in
  map (fun ring => ring_number (Ring.ring_id ring)) rings
  = map Some (seq 1 (length rings))
  /\ NoDup (map Ring.ring_id rings).
Proof.
  intros rings. unfold rings. rewrite analyse_fraud_rings.
  assert (E := number_rings_numbers (detect_cycles R (build_graph df)) 1).
  split.
  - now rewrite number_rings_length.
  - apply (NoDup_map_inv ring_number). rewrite map_map, E.
    apply NoDup_map_Some, seq_NoDup.
Qed.

(** ** Rings and the table *)

Lemma is_path_transfer_chain G ts l :
  (forall e, In e (edges G) -> In e ts) -> is_path G l -> transfer_chain ts l.
Proof.
  intros Hsub. induction l as [| u [| v l] IH]; simpl; auto.
  intros [He Hp]. split; [now apply Hsub | now apply IH].
Qed.

(** X12: when [nx.simple_cycles] returns cycles of the graph, every ring of
    a report is a closed loop of transfers of the table: each member sends
    to the next one in some row, the last one sends to the first, and all
    members are accounts of the table. *)
Theorem rings_are_transfer_loops (R : Runtime) (df : DataFrame) (ring : Ring.t) :
  simple_cycles_spec (simple_cycles R) ->
  In ring (fraud_rings (analyse R df)) ->
  transfer_loop (transfers df) (Ring.member_accounts ring)
  /\ forall k, In k (Ring.member_accounts ring) -> In k (first_appearance df).
Proof.
  intros Hspec Hr. rewrite analyse_fraud_rings in Hr.
  apply number_rings_In in Hr as [_ [_ Hc]]. split.
  - apply detect_cycles_In in Hc as [Hc _]. apply Hspec in Hc as [_ Hc].
    destruct (Ring.member_accounts ring) as [| u c]; [contradiction |].
    unfold is_cycle in Hc. unfold transfer_loop.
    apply (is_path_transfer_chain (build_graph df)); [| exact Hc].
    intros e He. rewrite edges_build_graph, fold_add_edge_key_In in He.
    destruct He as [[] | He]. exact He.
  - intros k Hk. now apply (detected_cycle_members R df _ k Hspec Hc).
Qed.

Lemma rings_are_transfer_loops_witness :
  transfer_loop (transfers ring_table) ["A"; "B"; "C"].
Proof.
  apply (rings_are_transfer_loops reference_runtime ring_table
           (ring_of 1 ["A"; "B"; "C"]) enumerate_cycles_spec).
  vm_compute. auto.
Defined.

(** ** The empty table *)

Lemma detect_cycles_no_edges R G :
  simple_cycles_spec (simple_cycles R) -> edges G = [] -> detect_cycles R G = [].
Proof.
  intros Hspec He.
  destruct (detect_cycles R G) as [| c l] eqn:E; [reflexivity |].
  assert (H : In c (detect_cycles R G)) by (rewrite E; now left).
  apply detect_cycles_In in H as [H _]. apply Hspec in H as [_ H].
  apply is_cycle_has_edge in H. contradiction.
Qed.

(** X13: a table without rows, whatever its columns, gives the empty
    report: no ring, no suspicious account and all three counts 0 (provided
    [nx.simple_cycles] only returns cycles of the graph). *)
Theorem empty_table_empty_report (R : Runtime) (df : DataFrame) :
  simple_cycles_spec (simple_cycles R) ->
  rows df = [] ->
  fraud_rings (analyse R df) = []
  /\ suspicious_accounts (analyse R df) = []
  /\ total_accounts_analyzed (summary (analyse R df)) = 0
  /\ suspicious_accounts_flagged (summary (analyse R df)) = 0
  /\ fraud_rings_detected (summary (analyse R df)) = 0.
Proof.
  intros Hspec Hrows.
  assert (EG : build_graph df = empty_graph).
  { unfold build_graph, iterrows. now rewrite Hrows. }
  assert (Ec : detect_cycles R (build_graph df) = []).
  { rewrite EG. now apply detect_cycles_no_edges. }
  unfold analyse. rewrite Ec. rewrite EG. repeat split.
Qed.

Lemma empty_table_empty_report_witness :
  suspicious_accounts
    (analyse reference_runtime {| columns := required_columns; rows := [] |})
  = [].
Proof.
  apply (empty_table_empty_report reference_runtime
           {| columns := required_columns; rows := [] |}
           enumerate_cycles_spec eq_refl).
Defined.

(** ** Ranking *)

Lemma find_ring_id_na rings k :
  (forall ring, In ring rings -> Ring.ring_id ring <> "N/A") ->
  (find_ring_id rings k = "N/A" <-> in_some_ring rings k = false).
Proof.
  intros Hid. unfold in_some_ring.
  induction rings as [| r rings IH]; simpl; [tauto |].
  destruct (Py.list_in k (Ring.member_accounts r)); simpl.
  - split; [| discriminate]. intros E. exfalso.
    apply (Hid r); [now left | assumption].
  - apply IH. intros ring Hr. apply Hid. now right.
Qed.

Lemma account_of_ring_id_na R df k :
  Account.ring_id (account_of R df k) = "N/A" <->
  in_some_ring (number_rings 1 (detect_cycles R (build_graph df))) k = false.
Proof.
  cbn [account_of Account.ring_id]. apply find_ring_id_na.
  intros ring Hr. apply number_rings_In in Hr as [number [E _]].
  rewrite E. apply ring_of_id_not_na.
Qed.




(** ** Ties outside the rings *)

Lemma dedup_first_NoDup seen l :
  NoDup l ->
  Py.dedup_first seen l = filter (fun x => negb (Py.list_in x seen)) l.
Proof.
  intros Hnd. revert seen.
  induction Hnd as [| x l Hx Hl IH]; intros seen; [reflexivity |].
  cbn [Py.dedup_first filter]. destruct (Py.list_in x seen) eqn:E; cbn [negb].
  - apply IH.
  - f_equal. rewrite IH. apply filter_ext_in. intros y Hy.
    unfold Py.list_in. cbn [existsb].
    destruct (String.eqb y x) eqn:Eyx; [| reflexivity].
    apply String.eqb_eq in Eyx. subst. contradiction.
Qed.

Lemma before_app_r {A} (l1 l2 : list A) x y :
  ~ In x l1 -> ~ In y l1 -> (before (l1 ++ l2) x y <-> before l2 x y).
Proof.
  intros Hx Hy. induction l1 as [| z l1 IH]; simpl; [tauto |].
  simpl in Hx, Hy. split; intros H.
  - inversion H; subst; [tauto |]. apply IH; tauto.
  - apply before_later. apply IH; tauto.
Qed.

Lemma before_filter_iff {A} (f : A -> bool) l x y :
  f x = true -> f y = true -> (before (filter f l) x y <-> before l x y).
Proof.
  intros Hx Hy. split; [apply before_unfilter | now apply before_filter].
Qed.

(** X15: among the accounts that belong to no ring, ties are broken by
    first appearance: two listed accounts with ring id "N/A" and equal
    scores stand in the order in which they first appear in the table. *)
Theorem ties_outside_rings_by_first_appearance (R : Runtime) (df : DataFrame)
    (x y : Account.t) :
  In x (suspicious_accounts (analyse R df)) ->
  In y (suspicious_accounts (analyse R df)) ->
  Account.ring_id x = "N/A" ->
  Account.ring_id y = "N/A" ->
  Account.suspicion_score x = Account.suspicion_score y ->
  (before (suspicious_accounts (analyse R df)) x y <->
   before (first_appearance df) (Account.account_id x) (Account.account_id y)).
Proof.
  intros Hx Hy Nx Ny E.
  rewrite (ties_follow_evidence_order R df x y Hx Hy E).
  apply suspicious_accounts_In in Hx as [kx [Hkx ->]].
  apply suspicious_accounts_In in Hy as [ky [Hky ->]].
  apply account_of_ring_id_na in Nx, Ny.
  cbn [account_of Account.account_id].
  set (cycles := detect_cycles R (build_graph df)) in *.
  assert (Hout : forall k,
            in_some_ring (number_rings 1 cycles) k = false ->
            In k (evidence_order R df) ->
            ~ In k (first_seen (concat cycles))
            /\ flagged df k = true).
  { intros k Hk Hin.
    assert (Hno : ~ exists c, In c cycles /\ In k c).
    { intros H. apply in_some_ring_cycles with (start := 1) in H. congruence. }
    split.
    - rewrite first_seen_In, in_concat. intros [c [Hc Hkc]]. apply Hno.
      now exists c.
    - apply evidence_order_In in Hin as [H | [_ H]]; [contradiction | exact H]. }
  destruct (Hout kx Nx Hkx) as [Cx Fx], (Hout ky Ny Hky) as [Cy Fy].
  unfold evidence_order. fold cycles.
  rewrite <- fold_add_key_first_seen, fold_left_app, fold_add_key_first_seen.
  rewrite fold_add_key.
  rewrite (before_app_r _ _ _ _ Cx Cy).
  rewrite dedup_first_NoDup
    by (apply NoDup_filter; unfold first_appearance; apply first_seen_NoDup).
  rewrite before_filter_iff
    by (apply negb_true_iff, list_in_not_In; assumption).
  now apply before_filter_iff.
Qed.

Lemma ties_outside_rings_by_first_appearance_witness :
  let df := table_of (map (fun s => (s, "K"))
                          ["S0"; "S1"; "S2"; "S3"; "S4"; "S5"; "S6"; "S7";
                           "S8"; "S9"]
                      ++ map (fun s => (s, "H"))
                          ["S0"; "S1"; "S2"; "S3"; "S4"; "S5"; "S6"; "S7";
                           "S8"; "S9"]) in
  before (suspicious_accounts (analyse reference_runtime df))
    (account_of reference_runtime df "K") (account_of reference_runtime df "H").
Proof.
  intros df.
  apply (ties_outside_rings_by_first_appearance reference_runtime df
           (account_of reference_runtime df "K")
           (account_of reference_runtime df "H")).
  - vm_compute. auto 10.
  - vm_compute. auto 10.
  - vm_compute. reflexivity.
  - vm_compute. reflexivity.
  - vm_compute. reflexivity.
  - vm_compute. apply before_later, before_here. simpl. auto 30.
Defined.

(** ** Uploading and downloading *)





